(** * The iDevJS client (src/lib/idevjsClient.js): a shallow embedding

    The client is a thin ES6 class over Node's [https], [querystring],
    [url] and [JSON].  The development has these layers:

    - [JS]: the fragment of the JavaScript data model the client touches
      (values, truthiness, property reads, string conversion);
    - [Node]: the platform functions the client calls ([JSON.stringify],
      [querystring.stringify], [url.format]), written from their
      documentation since they are not code of the repository;
    - the class [IDevJSClient] itself, method by method.  A method call is
      a computation in [io]: it logs the requests it puts on the wire and
      returns or throws.  The listeners a request registers are kept with
      it; they take the transport's event and the instance as it then is,
      and end in the caller's callback;
    - [Sample]: a reader of JSON texts, to run the client on concrete
      responses ([JSON.parse] itself is a parameter throughout);
    - the properties, each under the claim it settles, and worked
      examples. *)

From Stdlib Require Import String Ascii List ZArith Bool Lia.
From Stdlib Require Import DecimalString DecimalFacts DecimalPos DecimalN DecimalZ.
Import ListNotations.

Local Open Scope string_scope.
Local Open Scope Z_scope.
Local Set Warnings "-register-all".

(** ** JavaScript values *)

Module JS.

(** Numbers are the integers: ids, ports, status codes and error codes are
    all the client ever sees.  Objects are association lists in insertion
    order (the order [JSON.stringify] and [Object.keys] follow); a read
    returns the first binding of a key. *)
Inductive value : Type :=
| VUndefined
| VNull
| VBool (b : bool)
| VNum (n : Z)
| VStr (s : string)
| VArr (elems : list value)
| VObj (props : list (string * value)).

(** What a JavaScript evaluation can throw: the client's own error (a
    message and a code) or the runtime's TypeError. *)
Record IDevJSError : Type := mkIDevJSError { message : value; code : value }.

Inductive exn : Type :=
| Thrown (e : IDevJSError)
| TypeError (what : string).

Inductive result (A : Type) : Type :=
| Ok (a : A)
| Throw (e : exn).
Arguments Ok {A} a.
Arguments Throw {A} e.

Definition bind {A B} (m : result A) (f : A -> result B) : result B :=
  match m with
  | Ok a => f a
  | Throw e => Throw e
  end.

Notation "x <- m ;; k" := (bind m (fun x => k))
  (at level 61, m at next level, right associativity).

(** [ToBoolean]: the test behind [!x], [x || y] and [if (x)]. *)
Definition truthy (v : value) : bool :=
  match v with
  | VUndefined | VNull => false
  | VBool b => b
  | VNum n => negb (n =? 0)
  | VStr s => negb (s =? "")%string
  | VArr _ | VObj _ => true
  end.

(** [a || b] on values. *)
Definition or_else (a b : value) : value := if truthy a then a else b.

Inductive type_tag : Type :=
| TUndefined | TObject | TBoolean | TNumber | TString.

(** [typeof v]; [typeof null] is ['object']. *)
Definition typeof (v : value) : type_tag :=
  match v with
  | VUndefined => TUndefined
  | VNull | VArr _ | VObj _ => TObject
  | VBool _ => TBoolean
  | VNum _ => TNumber
  | VStr _ => TString
  end.

Fixpoint lookup (k : string) (props : list (string * value)) : value :=
  match props with
  | [] => VUndefined
  | (k', v) :: rest => if (k =? k')%string then v else lookup k rest
  end.

(** [o.k] for a property name [k] that is neither an array index nor a
    member of a built-in prototype other than [length] (the names the client
    reads are [data], [errors], [message], [code], [access_token] and the keys
    of its option bags).  Reading a property of [undefined] or [null]
    throws. *)
Definition get (o : value) (k : string) : result value :=
  match o with
  | VUndefined => Throw (TypeError "Cannot read property of undefined")
  | VNull => Throw (TypeError "Cannot read property of null")
  | VObj props => Ok (lookup k props)
  | VArr elems =>
      Ok (if (k =? "length")%string then VNum (Z.of_nat (length elems)) else VUndefined)
  | VStr s =>
      Ok (if (k =? "length")%string then VNum (Z.of_nat (String.length s)) else VUndefined)
  | VBool _ | VNum _ => Ok VUndefined
  end.

(** Decimal rendering of a number, [String(n)]. *)
Definition Number_toString (n : Z) : string := NilZero.string_of_int (Z.to_int n).

(** [o[i]] for an index [i]: an element of an array, a one-character string
    of a string, the property named by the decimal of [i] of an object. *)
Definition get_index (o : value) (i : nat) : result value :=
  match o with
  | VUndefined => Throw (TypeError "Cannot read property of undefined")
  | VNull => Throw (TypeError "Cannot read property of null")
  | VObj props => Ok (lookup (Number_toString (Z.of_nat i)) props)
  | VArr elems => Ok (nth i elems VUndefined)
  | VStr s =>
      Ok (match String.get i s with
          | Some ch => VStr (String ch EmptyString)
          | None => VUndefined
          end)
  | VBool _ | VNum _ => Ok VUndefined
  end.

(** [ToString], as applied by [+] with a string operand and by template
    literals.  An array is the comma-join of its elements, [null] and
    [undefined] elements counting as empty. *)
Fixpoint ToString (v : value) : string :=
  match v with
  | VUndefined => "undefined"
  | VNull => "null"
  | VBool true => "true"
  | VBool false => "false"
  | VNum n => Number_toString n
  | VStr s => s
  | VArr elems =>
      String.concat ","
        (map (fun e => match e with
                       | VUndefined | VNull => ""
                       | _ => ToString e
                       end) elems)
  | VObj _ => "[object Object]"
  end.

Definition join_item (e : value) : string :=
  match e with
  | VUndefined | VNull => ""
  | _ => ToString e
  end.

(** [v.join(sep)]: [Array.prototype.join] when [v] is an array; on anything
    else the method is missing and the call throws. *)
Definition join (v : value) (sep : string) : result string :=
  match v with
  | VArr elems => Ok (String.concat sep (map join_item elems))
  | VUndefined => Throw (TypeError "Cannot read property of undefined")
  | VNull => Throw (TypeError "Cannot read property of null")
  | _ => Throw (TypeError "join is not a function")
  end.

End JS.
Import JS.

(** ** The platform functions the client calls *)

Module Node.

Definition hex_digit (upper : bool) (n : N) : ascii :=
  if (n <? 10)%N then ascii_of_N (48 + n)
  else ascii_of_N ((if upper then 55 else 87) + n).

Definition hex_pair (upper : bool) (c : ascii) : string :=
  let n := N_of_ascii c in
  String (hex_digit upper (n / 16)) (String (hex_digit upper (n mod 16)) EmptyString).

Definition string_map (f : ascii -> string) (s : string) : string :=
  String.concat "" (map f (list_ascii_of_string s)).

(** *** JSON.stringify *)

Definition dquote : ascii := "034"%char.
Definition backslash : ascii := "092"%char.

(** One character inside a JSON string literal (QuoteJSONString). *)
Definition JSON_escape_char (c : ascii) : string :=
  let n := N_of_ascii c in
  if (n =? 34)%N then String backslash (String dquote EmptyString)
  else if (n =? 92)%N then String backslash (String backslash EmptyString)
  else if (n =? 8)%N then String backslash "b"
  else if (n =? 12)%N then String backslash "f"
  else if (n =? 10)%N then String backslash "n"
  else if (n =? 13)%N then String backslash "r"
  else if (n =? 9)%N then String backslash "t"
  else if (n <? 32)%N then String backslash ("u00" ++ hex_pair false c)
  else String c EmptyString.

Definition JSON_quote (s : string) : string :=
  String dquote (string_map JSON_escape_char s) ++ String dquote EmptyString.

(** [JSON.stringify(v)] with no replacer and no indentation; [None] is the
    [undefined] it returns for [undefined].  A property whose value is
    [undefined] is left out of an object, an [undefined] element of an array
    is written [null]. *)
Fixpoint JSON_stringify (v : value) : option string :=
  match v with
  | VUndefined => None
  | VNull => Some "null"
  | VBool true => Some "true"
  | VBool false => Some "false"
  | VNum n => Some (Number_toString n)
  | VStr s => Some (JSON_quote s)
  | VArr elems =>
      Some ("[" ++ String.concat ","
                     (map (fun e => match JSON_stringify e with
                                    | Some t => t
                                    | None => "null"
                                    end) elems) ++ "]")
  | VObj props =>
      Some ("{" ++ String.concat ","
                     (flat_map (fun kv => match JSON_stringify (snd kv) with
                                          | Some t => [JSON_quote (fst kv) ++ ":" ++ t]
                                          | None => []
                                          end) props) ++ "}")
  end.

(** *** querystring *)

Definition in_range (lo hi n : N) : bool := ((lo <=? n) && (n <=? hi))%N.

(** The characters [querystring.escape] leaves alone: letters, digits and
    [- _ . ! ~ * ' ( )]. *)
Definition unreserved (c : ascii) : bool :=
  let n := N_of_ascii c in
  in_range 65 90 n || in_range 97 122 n || in_range 48 57 n
  || existsb (N.eqb n) [45; 95; 46; 33; 126; 42; 39; 40; 41]%N.

Definition escape_char (c : ascii) : string :=
  if unreserved c then String c EmptyString else String "%" (hex_pair true c).

(** [querystring.escape]: percent-encoding, byte by byte. *)
Definition escape (s : string) : string := string_map escape_char s.

Definition hex_value (c : ascii) : option N :=
  let n := N_of_ascii c in
  if in_range 48 57 n then Some (n - 48)%N
  else if in_range 65 70 n then Some (n - 55)%N
  else if in_range 97 102 n then Some (n - 87)%N
  else None.

(** [querystring.unescape]: each [%XY] back to its byte. *)
Fixpoint unescape (s : string) : string :=
  match s with
  | EmptyString => EmptyString
  | String c rest =>
      if Ascii.eqb c "%" then
        match rest with
        | String h (String l rest') =>
            match hex_value h, hex_value l with
            | Some a, Some b => String (ascii_of_N (16 * a + b)%N) (unescape rest')
            | _, _ => String c (unescape rest)
            end
        | _ => String c (unescape rest)
        end
      else String c (unescape rest)
  end.

Definition stringifyPrimitive (v : value) : string :=
  match v with
  | VStr s => s
  | VNum n => Number_toString n
  | VBool true => "true"
  | VBool false => "false"
  | _ => ""
  end.

Definition qs_fields (props : list (string * value)) : list string :=
  flat_map (fun kv =>
              let ks := escape (fst kv) ++ "=" in
              match snd kv with
              | VArr elems => map (fun e => ks ++ escape (stringifyPrimitive e)) elems
              | v => [ks ++ escape (stringifyPrimitive v)]
              end) props.

(** [querystring.stringify(obj)] with the default separators: one
    [key=value] field per property, an array value giving one field per
    element, the fields joined by [&]; the empty string for what is not an
    object. *)
Definition qs_stringify (obj : value) : string :=
  match obj with
  | VObj props => String.concat "&" (qs_fields props)
  | _ => ""
  end.

(** *** url.format *)

Record urlObject : Type := mkUrl
  { protocol : string; host : string; pathname : string; query : value }.

(** [url.format] on an object with a slashed protocol given without its
    colon, a host, an absolute pathname free of [?] and [#], and a query
    object: the search part is [?] and the stringified query, when that is
    not empty. *)
Definition url_format (u : urlObject) : string :=
  let q := qs_stringify (query u) in
  let search := if (q =? "")%string then "" else "?" ++ q in
  protocol u ++ ":" ++ "//" ++ host u ++ pathname u ++ search.

End Node.
Import Node.

(** ** The client *)

Definition DEFAULT_ERROR_CODE : Z := -1.
Definition DEFAULT_TIMEOUT_MS : Z := 5000.
Definition BASE_URI : string := "api.idevjs.com".
Definition DEFAULT_VERSION : string := "v1".

(** Valid scope options. *)
Module Scope.
Definition BASIC_PROFILE : string := "basicProfile".
Definition LIST_PUBLICATIONS : string := "listPublications".
Definition PUBLISH_POST : string := "publishPost".
End Scope.

(** The publish status when creating a post. *)
Module PostPublishStatus.
Definition DRAFT : string := "draft".
Definition UNLISTED : string := "unlisted".
Definition PUBLIC : string := "public".
End PostPublishStatus.

(** The content format to use when creating a post. *)
Module PostContentFormat.
Definition HTML : string := "html".
Definition MARKDOWN : string := "markdown".
End PostContentFormat.

(** The license to use when creating a post. *)
Module PostLicense.
Definition ALL_RIGHTS_RESERVED : string := "all-rights-reserved".
Definition CC_40_BY : string := "cc-40-by".
Definition CC_40_BY_ND : string := "cc-40-by-nd".
Definition CC_40_BY_SA : string := "cc-40-by-sa".
Definition CC_40_BY_NC : string := "cc-40-by-nc".
Definition CC_40_BY_NC_ND : string := "cc-40-by-nc-nd".
Definition CC_40_BY_NC_SA : string := "cc-40-by-nc-sa".
Definition CC_40_ZERO : string := "cc-40-zero".
Definition PUBLIC_DOMAIN : string := "public-domain".
End PostLicense.

(** [new IDevJSError(message, code)]. *)
Definition new_IDevJSError (message code : value) : IDevJSError :=
  mkIDevJSError message code.

(** The fields of an [IDevJSClient] instance. *)
Record client : Type := mkClient
  { options : value;
    _version : value;
    _clientId : value;
    _clientSecret : value;
    _accessToken : value }.

(** The argument of [_makeRequest]: an object literal with [method] and
    [path], and [contentType] and [data] when the caller gives them
    ([VUndefined] when it does not). *)
Record descriptor : Type := mkDescriptor
  { method : string;
    path : string;
    contentType : value;
    data : value }.

(** What the client did to the [https.request] object it created: the
    parameters it was created with, the headers set on it in order, the
    timeout armed, and the chunk written before [end()]. *)
Record ClientRequest : Type := mkRequest
  { req_host : string;
    req_port : Z;
    req_method : string;
    req_path : string;
    req_headers : list (string * value);
    req_timeout : Z;
    req_written : option value }.

(** What the transport reports back on a request: the [end] of a response
    with its status code and the chunks received, or an [error] (connection
    failure, or the abort the timeout triggers) with its message. *)
Inductive transport_event : Type :=
| ResponseEnd (statusCode : Z) (chunks : list string)
| RequestError (message : string).

(** [_enforce(options, requiredKeys)]: the [forEach] over the keys. *)
Fixpoint _enforce_keys (options : value) (requiredKeys : list string) : result unit :=
  match requiredKeys with
  | [] => Ok tt
  | requiredKey :: rest =>
      v <- get options requiredKey ;;
      if negb (truthy v)
      then Throw (Thrown (new_IDevJSError
                            (VStr ("Missing required parameter " ++ String dquote requiredKey
                                   ++ String dquote EmptyString))
                            (VNum DEFAULT_ERROR_CODE)))
      else _enforce_keys options rest
  end.

Definition _enforce (options : value) (requiredKeys : list string) : result unit :=
  if negb (truthy options)
  then Throw (Thrown (new_IDevJSError (VStr "Parameters for this call are undefined")
                                      (VNum DEFAULT_ERROR_CODE)))
  else _enforce_keys options requiredKeys.

(** [new IDevJSClient(options)]; the parameter defaults to [{}] when the
    argument is [undefined]. *)
Definition constructor (options : value) : result client :=
  let options := match options with VUndefined => VObj [] | _ => options end in
  _ <- _enforce options ["clientId"; "clientSecret"] ;;
  version <- get options "version" ;;
  clientId <- get options "clientId" ;;
  clientSecret <- get options "clientSecret" ;;
  Ok {| options := options;
        _version := or_else version (VStr DEFAULT_VERSION);
        _clientId := clientId;
        _clientSecret := clientSecret;
        _accessToken := VStr "" |}.

(** [setAccessToken(token)]; the method returns [this], here the updated
    instance. *)
Definition setAccessToken (this : client) (token : value) : client :=
  {| options := options this;
     _version := _version this;
     _clientId := _clientId this;
     _clientSecret := _clientSecret this;
     _accessToken := token |}.

Section Requests.

(** [JSON.parse], [None] when it throws; and the type of what a caller's
    callback computes. *)
Variable JSON_parse : string -> option value.
Variable R : Type.

(** A Node callback [(err, data) => ...], run against the instance as it is
    when the callback fires; [err] is [null] ([None]) or an [IDevJSError]. *)
Definition NodeCallback : Type := client -> option IDevJSError -> value -> result R.

(** The listener of [res.on('end')] after the body parsed: lines 252-261.
    [Throw] is an exception leaving the listener, the callback not called. *)
Definition classify (callback : NodeCallback) (this : client)
    (statusCode : Z) (payload : value) : result R :=
  let statusType := statusCode / 100 in
  if (statusType =? 4) || (statusType =? 5) then
    errors <- get payload "errors" ;;
    err <- get_index errors 0 ;;
    message <- get err "message" ;;
    code <- get err "code" ;;
    callback this (Some (new_IDevJSError message code)) VNull
  else if statusType =? 2 then
    data <- get payload "data" ;;
    callback this None (or_else data payload)
  else
    callback this (Some (new_IDevJSError (VStr "Unexpected response")
                                         (VNum DEFAULT_ERROR_CODE))) VNull.

(** The listener of [res.on('end')]: lines 242-262. *)
Definition on_end (callback : NodeCallback) (this : client)
    (statusCode : Z) (body : list string) : result R :=
  let responseText := String.concat "" body in
  match JSON_parse responseText with
  | None =>
      callback this (Some (new_IDevJSError (VStr "Failed to parse response")
                                           (VNum DEFAULT_ERROR_CODE))) VNull
  | Some payload => classify callback this statusCode payload
  end.

(** The listener of [req.on('error')]: lines 263-265. *)
Definition on_error (callback : NodeCallback) (this : client) (message : string) : result R :=
  callback this (Some (new_IDevJSError (VStr message) (VNum DEFAULT_ERROR_CODE))) VNull.

(** A request on the wire together with the listeners registered on it. *)
Record exchange : Type := mkExchange
  { request : ClientRequest;
    listener : client -> transport_event -> result R }.

(** A method call: the requests it put on the wire, in order, and how it
    ended (returned a value, or threw). *)
Definition io (A : Type) : Type := (list exchange * result A)%type.

Definition wire {A} (m : io A) : list exchange := fst m.
Definition outcome {A} (m : io A) : result A := snd m.

Definition io_ret {A} (a : A) : io A := ([], Ok a).
Definition io_lift {A} (r : result A) : io A := ([], r).
Definition io_bind {A B} (m : io A) (f : A -> io B) : io B :=
  match m with
  | (sent, Ok a) => let (sent', r) := f a in ((sent ++ sent')%list, r)
  | (sent, Throw e) => (sent, Throw e)
  end.

End Requests.

Arguments io_ret {R A} a.
Arguments io_lift {R A} r.
Arguments io_bind {R A B} m f.
Arguments wire {R A} m.
Arguments outcome {R A} m.
Arguments request {R} e.
Arguments listener {R} e.

Declare Scope io_scope.
Delimit Scope io_scope with io.
Notation "x <- m ;; k" := (io_bind m (fun x => k))
  (at level 61, m at next level, right associativity) : io_scope.
Notation "m ;; k" := (io_bind m (fun _ => k))
  (at level 61, right associativity) : io_scope.

Section Methods.

Variable JSON_parse : string -> option value.
Variable R : Type.

(** [_makeRequest(options, callback)]: lines 229-285. *)
Definition _makeRequest (this : client) (options : descriptor)
    (callback : NodeCallback R) : io R unit :=
  let req :=
    {| req_host := BASE_URI;
       req_port := 443;
       req_method := method options;
       req_path := "/" ++ ToString (_version this) ++ path options;
       req_headers :=
         [ ("Content-Type", or_else (contentType options) (VStr "application/json"));
           ("Authorization", VStr ("Bearer " ++ ToString (_accessToken this)));
           ("Accept", VStr "application/json");
           ("Accept-Charset", VStr "utf-8") ];
       req_timeout := DEFAULT_TIMEOUT_MS;
       req_written :=
         if truthy (data options) then
           Some (match typeof (data options) with
                 | TObject =>
                     match JSON_stringify (data options) with
                     | Some text => VStr text
                     | None => VUndefined
                     end
                 | _ => data options
                 end)
         else None |} in
  ([ {| request := req;
        listener := fun this' ev =>
          match ev with
          | ResponseEnd statusCode body => on_end JSON_parse R callback this' statusCode body
          | RequestError message => on_error R callback this' message
          end |} ],
   Ok tt).

(** [getAuthorizationUrl(state, redirectUrl, requestedScope)]. *)
Definition getAuthorizationUrl (this : client)
    (state redirectUrl requestedScope : value) : io R string :=
  io_lift
    (scope <- join requestedScope "," ;;
     Ok (url_format
           {| protocol := "https";
              host := BASE_URI;
              pathname := "/oauth/authorize";
              query := VObj [ ("client_id", _clientId this);
                              ("scope", VStr scope);
                              ("response_type", VStr "code");
                              ("state", state);
                              ("redirect_uri", redirectUrl) ] |})).

(** The callback [_acquireAccessToken] hands to [_makeRequest], bound to
    the instance: lines 158-163. *)
Definition _acquireAccessToken_callback (callback : NodeCallback R) : NodeCallback R :=
  fun this err data =>
    match err with
    | None =>
        access_token <- get data "access_token" ;;
        callback (setAccessToken this access_token) err data
    | Some _ => callback this err data
    end.

(** [_acquireAccessToken(params, callback)]. *)
Definition _acquireAccessToken (this : client) (params : value)
    (callback : NodeCallback R) : io R unit :=
  _makeRequest this
    {| method := "POST";
       path := "/oauth/tokens";
       contentType := VStr "application/x-www-form-urlencoded";
       data := VStr (qs_stringify params) |}
    (_acquireAccessToken_callback callback).

(** [exchangeAuthorizationCode(code, redirectUrl, callback)]. *)
Definition exchangeAuthorizationCode (this : client) (code redirectUrl : value)
    (callback : NodeCallback R) : io R unit :=
  _acquireAccessToken this
    (VObj [ ("code", code);
            ("client_id", _clientId this);
            ("client_secret", _clientSecret this);
            ("grant_type", VStr "authorization_code");
            ("redirect_uri", redirectUrl) ])
    callback.

(** [exchangeRefreshToken(refreshToken, callback)]. *)
Definition exchangeRefreshToken (this : client) (refreshToken : value)
    (callback : NodeCallback R) : io R unit :=
  _acquireAccessToken this
    (VObj [ ("refresh_token", refreshToken);
            ("client_id", _clientId this);
            ("client_secret", _clientSecret this);
            ("grant_type", VStr "refresh_token") ])
    callback.

(** [getUser(callback)]. *)
Definition getUser (this : client) (callback : NodeCallback R) : io R unit :=
  _makeRequest this
    {| method := "GET"; path := "/me"; contentType := VUndefined; data := VUndefined |}
    callback.

Local Open Scope io_scope.

(** [getPostForUser(options, callback)]. *)
Definition getPostForUser (this : client) (options : value)
    (callback : NodeCallback R) : io R unit :=
  io_lift (_enforce options ["userId"]) ;;
  userId <- io_lift (get options "userId") ;;
  _makeRequest this
    {| method := "GET";
       path := "/users/" ++ ToString userId ++ "/posts";
       contentType := VUndefined;
       data := VUndefined |}
    callback.

(** [createPost(options, callback)]. *)
Definition createPost (this : client) (options : value)
    (callback : NodeCallback R) : io R unit :=
  io_lift (_enforce options ["userId"]) ;;
  userId <- io_lift (get options "userId") ;;
  title <- io_lift (get options "title") ;;
  content <- io_lift (get options "content") ;;
  contentFormat <- io_lift (get options "contentFormat") ;;
  tags <- io_lift (get options "tags") ;;
  canonicalUrl <- io_lift (get options "canonicalUrl") ;;
  publishStatus <- io_lift (get options "publishStatus") ;;
  license <- io_lift (get options "license") ;;
  _makeRequest this
    {| method := "POST";
       path := "/users/" ++ ToString userId ++ "/posts";
       contentType := VUndefined;
       data := VObj [ ("title", title);
                      ("content", content);
                      ("contentFormat", contentFormat);
                      ("tags", tags);
                      ("canonicalUrl", canonicalUrl);
                      ("publishStatus", publishStatus);
                      ("license", license) ] |}
    callback.

End Methods.

(** ** Observing a call *)

Section Observation.

Variable JSON_parse : string -> option value.
Variable R : Type.

(** The calls of the public interface that talk to the service. *)
Inductive operation : Type :=
| GetUser
| GetPostForUser (options : value)
| CreatePost (options : value)
| ExchangeAuthorizationCode (code redirectUrl : value)
| ExchangeRefreshToken (refreshToken : value).

Definition call (this : client) (op : operation) (callback : NodeCallback R) : io R unit :=
  match op with
  | GetUser => getUser JSON_parse R this callback
  | GetPostForUser options => getPostForUser JSON_parse R this options callback
  | CreatePost options => createPost JSON_parse R this options callback
  | ExchangeAuthorizationCode code redirectUrl =>
      exchangeAuthorizationCode JSON_parse R this code redirectUrl callback
  | ExchangeRefreshToken refreshToken =>
      exchangeRefreshToken JSON_parse R this refreshToken callback
  end.

End Observation.

(** A callback that hands back what it was called with: the instance as it
    then is, [err] and [data]. *)
Definition report : NodeCallback (client * option IDevJSError * value) :=
  fun this err data => Ok (this, err, data).

(** What [_makeRequest] makes of a transport event, as [report] sees it. *)
Definition completion (JSON_parse : string -> option value) (this : client)
    (ev : transport_event) : result (client * option IDevJSError * value) :=
  match ev with
  | ResponseEnd statusCode body => on_end JSON_parse _ report this statusCode body
  | RequestError message => on_error _ report this message
  end.

(** [k in o] for an object [o]. *)
Definition has_property (o : value) (k : string) : bool :=
  match o with
  | VObj props => existsb (fun kv => (k =? fst kv)%string) props
  | _ => false
  end.

(** ** A reference reader for JSON texts

    [JSON.parse] stays a parameter of the development.  To run the client on
    concrete response texts, and to have one function that provably reads
    back what [JSON_stringify] writes, the examples use this reader of the
    JSON grammar without fractions, exponents and escapes beyond one byte
    (it rejects those). *)

Module Sample.

Import Decimal.

Definition is_ws (c : ascii) : bool :=
  existsb (N.eqb (N_of_ascii c)) [32; 9; 10; 13]%N.

Fixpoint skip_ws (s : list ascii) : list ascii :=
  match s with
  | c :: rest => if is_ws c then skip_ws rest else s
  | [] => []
  end.

Fixpoint strip_prefix (p s : list ascii) : option (list ascii) :=
  match p, s with
  | [], _ => Some s
  | a :: p', b :: s' => if Ascii.eqb a b then strip_prefix p' s' else None
  | _ :: _, [] => None
  end.

(** The character a one-letter escape stands for. *)
Definition unescape1 (c : ascii) : option ascii :=
  match N_of_ascii c with
  | 34%N => Some dquote
  | 92%N => Some backslash
  | 47%N => Some "/"%char
  | 98%N => Some "008"%char
  | 102%N => Some "012"%char
  | 110%N => Some "010"%char
  | 114%N => Some "013"%char
  | 116%N => Some "009"%char
  | _ => None
  end.

(** The byte four hex digits stand for, when it is one byte. *)
Definition unescape4 (h1 h2 h3 h4 : ascii) : option ascii :=
  match hex_value h1, hex_value h2, hex_value h3, hex_value h4 with
  | Some a, Some b, Some c, Some d =>
      let n := (4096 * a + 256 * b + 16 * c + d)%N in
      if (n <? 256)%N then Some (ascii_of_N n) else None
  | _, _, _, _ => None
  end.

Definition push (c : option ascii) (r : option (string * list ascii))
  : option (string * list ascii) :=
  match c, r with
  | Some ch, Some (str, tail) => Some (String ch str, tail)
  | _, _ => None
  end.

(** The characters of a string literal after its opening quote. *)
Fixpoint string_body (s : list ascii) : option (string * list ascii) :=
  match s with
  | [] => None
  | c :: rest =>
      if Ascii.eqb c dquote then Some (EmptyString, rest)
      else if Ascii.eqb c backslash then
        match rest with
        | e :: rest' =>
            if Ascii.eqb e "u"%char then
              match rest' with
              | h1 :: h2 :: h3 :: h4 :: rest'' =>
                  push (unescape4 h1 h2 h3 h4) (string_body rest'')
              | _ => None
              end
            else push (unescape1 e) (string_body rest')
        | [] => None
        end
      else if (N_of_ascii c <? 32)%N then None
      else push (Some c) (string_body rest)
  end.

Definition digit_of (c : ascii) : option (uint -> uint) :=
  match N_of_ascii c with
  | 48%N => Some D0
  | 49%N => Some D1
  | 50%N => Some D2
  | 51%N => Some D3
  | 52%N => Some D4
  | 53%N => Some D5
  | 54%N => Some D6
  | 55%N => Some D7
  | 56%N => Some D8
  | 57%N => Some D9
  | _ => None
  end.

Definition is_digit (c : ascii) : bool :=
  match digit_of c with Some _ => true | None => false end.

(** The longest run of digits at the head of a text. *)
Fixpoint read_uint (s : list ascii) : uint * list ascii :=
  match s with
  | c :: rest =>
      match digit_of c with
      | Some digit => let (d, tail) := read_uint rest in (digit d, tail)
      | None => (Nil, s)
      end
  | [] => (Nil, [])
  end.

Definition leading_zero (d : uint) : bool :=
  match d with
  | D0 Nil => false
  | D0 _ => true
  | _ => false
  end.

Definition fraction_follows (tail : list ascii) : bool :=
  match tail with
  | c :: _ => existsb (Ascii.eqb c) ["."; "e"; "E"]%char
  | [] => false
  end.

(** An integer literal: digits with no leading zero, nothing of a fraction
    or an exponent behind them. *)
Definition natural (s : list ascii) : option (N * list ascii) :=
  let (d, tail) := read_uint s in
  match d with
  | Nil => None
  | _ => if leading_zero d || fraction_follows tail then None else Some (N.of_uint d, tail)
  end.

(** [o[k] = v] on the properties read so far: a repeated key keeps its
    place and takes the later value. *)
Fixpoint set_prop (k : string) (v : value) (props : list (string * value)) :=
  match props with
  | [] => [(k, v)]
  | (k', v') :: rest =>
      if (k =? k')%string then (k, v) :: rest else (k', v') :: set_prop k v rest
  end.

Fixpoint element (fuel : nat) (s : list ascii) {struct fuel} : option (value * list ascii) :=
  match fuel with
  | O => None
  | S fuel' =>
      match skip_ws s with
      | [] => None
      | c :: rest =>
          if Ascii.eqb c dquote then
            match string_body rest with
            | Some (str, tail) => Some (VStr str, tail)
            | None => None
            end
          else if Ascii.eqb c "["%char then
            match skip_ws rest with
            | d :: tail =>
                if Ascii.eqb d "]"%char then Some (VArr [], tail)
                else match elements fuel' rest with
                     | Some (vs, tail') => Some (VArr vs, tail')
                     | None => None
                     end
            | [] => None
            end
          else if Ascii.eqb c "{"%char then
            match skip_ws rest with
            | d :: tail =>
                if Ascii.eqb d "}"%char then Some (VObj [], tail)
                else match members fuel' [] rest with
                     | Some (ps, tail') => Some (VObj ps, tail')
                     | None => None
                     end
            | [] => None
            end
          else if Ascii.eqb c "-"%char then
            match natural rest with
            | Some (n, tail) => Some (VNum (- Z.of_N n), tail)
            | None => None
            end
          else if is_digit c then
            match natural (c :: rest) with
            | Some (n, tail) => Some (VNum (Z.of_N n), tail)
            | None => None
            end
          else
            match strip_prefix (list_ascii_of_string "null") (c :: rest),
                  strip_prefix (list_ascii_of_string "true") (c :: rest),
                  strip_prefix (list_ascii_of_string "false") (c :: rest) with
            | Some tail, _, _ => Some (VNull, tail)
            | _, Some tail, _ => Some (VBool true, tail)
            | _, _, Some tail => Some (VBool false, tail)
            | _, _, _ => None
            end
      end
  end

with elements (fuel : nat) (s : list ascii) {struct fuel} : option (list value * list ascii) :=
  match fuel with
  | O => None
  | S fuel' =>
      match element fuel' s with
      | Some (v, tail) =>
          match skip_ws tail with
          | d :: tail' =>
              if Ascii.eqb d ","%char then
                match elements fuel' tail' with
                | Some (vs, tail'') => Some (v :: vs, tail'')
                | None => None
                end
              else if Ascii.eqb d "]"%char then Some ([v], tail')
              else None
          | [] => None
          end
      | None => None
      end
  end

with members (fuel : nat) (acc : list (string * value)) (s : list ascii) {struct fuel}
  : option (list (string * value) * list ascii) :=
  match fuel with
  | O => None
  | S fuel' =>
      match skip_ws s with
      | q :: rest =>
          if Ascii.eqb q dquote then
            match string_body rest with
            | Some (k, tail) =>
                match skip_ws tail with
                | colon :: tail' =>
                    if Ascii.eqb colon ":"%char then
                      match element fuel' tail' with
                      | Some (v, tail'') =>
                          let acc' := set_prop k v acc in
                          match skip_ws tail'' with
                          | d :: tail3 =>
                              if Ascii.eqb d ","%char then members fuel' acc' tail3
                              else if Ascii.eqb d "}"%char then Some (acc', tail3)
                              else None
                          | [] => None
                          end
                      | None => None
                      end
                    else None
                | [] => None
                end
            | None => None
            end
          else None
      | [] => None
      end
  end.

Definition parse (text : string) : option value :=
  let s := list_ascii_of_string text in
  match element (S (length s)) s with
  | Some (v, tail) =>
      match skip_ws tail with
      | [] => Some v
      | _ :: _ => None
      end
  | None => None
  end.

(** A string literal as it stands in a JSON text. *)
Definition q (s : string) : string := String dquote s ++ String dquote EmptyString.

End Sample.

(** ** Vocabulary of the statements *)

(** The error [_enforce] throws for a required key that is missing. *)
Definition missing_parameter (requiredKey : string) : IDevJSError :=
  new_IDevJSError
    (VStr ("Missing required parameter " ++ String dquote requiredKey
           ++ String dquote EmptyString))
    (VNum (-1)).

(** Passing what [report] saw on to a callback. *)
Definition then_callback {R : Type} (callback : NodeCallback R)
    (r : result (client * option IDevJSError * value)) : result R :=
  match r with
  | Ok (this, err, data) => callback this err data
  | Throw e => Throw e
  end.


(** One member of a JSON object text, nothing for an [undefined] value. *)
Definition JSON_member (kv : string * value) : list string :=
  match JSON_stringify (snd kv) with
  | Some t => [JSON_quote (fst kv) ++ ":" ++ t]
  | None => []
  end.

(** The fields of a post that [createPost] forwards. *)
Definition post_fields : list string :=
  ["title"; "content"; "contentFormat"; "tags"; "canonicalUrl"; "publishStatus"; "license"].

(** The post fields an option bag supplies, with their values, in the order
    of [post_fields]. *)
Definition supplied (options : value) : list (string * value) :=
  flat_map (fun k => match get options k with
                     | Ok VUndefined | Throw _ => []
                     | Ok v => [(k, v)]
                     end) post_fields.



(** What the listeners of the requests of a call answer to a transport
    event, run against [this']. *)
Definition responses {R A : Type} (m : io R A) (this' : client) (ev : transport_event)
  : list (result R) :=
  map (fun x => listener x this' ev) (wire m).

(** ** JSON values and their texts *)

Fixpoint distinct (keys : list string) : bool :=
  match keys with
  | [] => true
  | k :: rest => negb (existsb (String.eqb k) rest) && distinct rest
  end.

(** The values [JSON.stringify] writes without loss: no [undefined]
    anywhere, no key twice in an object. *)
Fixpoint json (v : value) : bool :=
  match v with
  | VUndefined => false
  | VNull | VBool _ | VNum _ | VStr _ => true
  | VArr elems => forallb json elems
  | VObj props => forallb (fun kv => json (snd kv)) props && distinct (map fst props)
  end.

(** A parser reads back what [JSON.stringify] writes. *)
Definition reads_back (JSON_parse : string -> option value) : Prop :=
  forall v text, json v = true -> JSON_stringify v = Some text -> JSON_parse text = Some v.

(** The text of a value inside an array. *)
Definition text_of (v : value) : string :=
  match JSON_stringify v with
  | Some t => t
  | None => "null"
  end.

Definition member_text (kv : string * value) : string :=
  JSON_quote (fst kv) ++ ":" ++ text_of (snd kv).

(** Fuel enough for the reader to read a value back. *)
Fixpoint bound (v : value) : nat :=
  match v with
  | VArr elems => S (list_sum (map (fun e => S (bound e)) elems))
  | VObj props => S (list_sum (map (fun kv => S (bound (snd kv))) props))
  | _ => 1%nat
  end.

(** What may stand behind a value in a text: nothing, or a comma or a
    closing bracket. *)
Definition follows (rest : list ascii) : Prop :=
  match rest with
  | [] => True
  | c :: _ => c = ","%char \/ c = "]"%char \/ c = "}"%char
  end.

(** The first character of the text of a value is neither blank nor a
    closing bracket. *)
Definition opens (s : list ascii) : Prop :=
  exists c t, s = c :: t /\ Sample.is_ws c = false /\ Ascii.eqb c "]" = false.

(** The reader reads the text of [v] back, whatever follows it, given fuel
    [bound v]. *)
Definition reads (v : value) : Prop :=
  forall fuel rest,
    (bound v <= fuel)%nat -> follows rest ->
    Sample.element fuel (list_ascii_of_string (text_of v) ++ rest)%list = Some (v, rest).

(** ** Vocabulary of the further properties *)

(** The listener of [res.on('data')]: [body.push(data)], lines 239-241. *)
Definition on_data (body : list string) (data : string) : list string :=
  (body ++ [data])%list.

(** The [body] array once the chunks of a response have come in, in order. *)
Definition received (chunks : list string) : list string :=
  fold_left on_data chunks [].

(** The error [_enforce] throws for an option bag that is falsy. *)
Definition undefined_parameters : IDevJSError :=
  new_IDevJSError (VStr "Parameters for this call are undefined") (VNum (-1)).

(** The option bag has a truthy value under the key. *)
Definition provides (options : value) (k : string) : Prop :=
  exists v, get options k = Ok v /\ truthy v = true.

(** [options.userId], [undefined] where it cannot be read. *)
Definition userId_of (options : value) : value :=
  match get options "userId" with
  | Ok v => v
  | Throw _ => VUndefined
  end.

(** The call passes the checks of [_enforce]. *)
Definition validates (op : operation) : bool :=
  match op with
  | GetPostForUser options | CreatePost options =>
      truthy options && truthy (userId_of options)
  | _ => true
  end.

(** The method and the path, below the version, each call asks for. *)
Definition verb (op : operation) : string :=
  match op with
  | GetUser | GetPostForUser _ => "GET"
  | _ => "POST"
  end.

Definition route (op : operation) : string :=
  match op with
  | GetUser => "/me"
  | GetPostForUser options | CreatePost options =>
      "/users/" ++ ToString (userId_of options) ++ "/posts"
  | ExchangeAuthorizationCode _ _ | ExchangeRefreshToken _ => "/oauth/tokens"
  end.

(** A request with its [Authorization] header set for another token. *)
Definition authorize (token : value) (r : ClientRequest) : ClientRequest :=
  {| req_host := req_host r;
     req_port := req_port r;
     req_method := req_method r;
     req_path := req_path r;
     req_headers :=
       map (fun h => if (fst h =? "Authorization")%string
                     then (fst h, VStr ("Bearer " ++ ToString token))
                     else h) (req_headers r);
     req_timeout := req_timeout r;
     req_written := req_written r |}.

Definition nullish (v : value) : bool :=
  match v with
  | VUndefined | VNull => true
  | _ => false
  end.

(** The responses on which the [end] listener reads a property of [null]
    or [undefined]: a 4xx or 5xx whose parsed body, [errors] or first error
    is one of the two, a 2xx whose parsed body is. *)
Definition unreadable (JSON_parse : string -> option value) (ev : transport_event) : Prop :=
  exists statusCode body payload,
    ev = ResponseEnd statusCode body /\
    JSON_parse (String.concat "" body) = Some payload /\
    (((statusCode / 100 = 4 \/ statusCode / 100 = 5) /\
      (nullish payload = true \/
       exists errors,
         get payload "errors" = Ok errors /\
         (nullish errors = true \/
          exists first, get_index errors 0 = Ok first /\ nullish first = true)))
     \/ (statusCode / 100 = 2 /\ nullish payload = true)).

(** The two instances differ at most in their access token. *)
Definition same_identity (a b : client) : Prop :=
  options a = options b /\
  _version a = _version b /\
  _clientId a = _clientId b /\
  _clientSecret a = _clientSecret b.

(** What each call writes to its request: nothing for the two reads, the
    JSON text of the supplied post fields, the form-encoded grant. *)
Definition written (this : client) (op : operation) : option value :=
  match op with
  | GetUser | GetPostForUser _ => None
  | CreatePost options => Some (VStr (text_of (VObj (supplied options))))
  | ExchangeAuthorizationCode code redirectUrl =>
      Some (VStr (qs_stringify
                    (VObj [ ("code", code);
                            ("client_id", _clientId this);
                            ("client_secret", _clientSecret this);
                            ("grant_type", VStr "authorization_code");
                            ("redirect_uri", redirectUrl) ])))
  | ExchangeRefreshToken refreshToken =>
      Some (VStr (qs_stringify
                    (VObj [ ("refresh_token", refreshToken);
                            ("client_id", _clientId this);
                            ("client_secret", _clientSecret this);
                            ("grant_type", VStr "refresh_token") ])))
  end.

(** The request a call sends when it passes validation. *)
Definition request_of (this : client) (op : operation) : ClientRequest :=
  {| req_host := "api.idevjs.com";
     req_port := 443;
     req_method := verb op;
     req_path := "/" ++ ToString (_version this) ++ route op;
     req_headers :=
       [ ("Content-Type",
          VStr match op with
               | ExchangeAuthorizationCode _ _ | ExchangeRefreshToken _ =>
                   "application/x-www-form-urlencoded"
               | _ => "application/json"
               end);
         ("Authorization", VStr ("Bearer " ++ ToString (_accessToken this)));
         ("Accept", VStr "application/json");
         ("Accept-Charset", VStr "utf-8") ];
     req_timeout := 5000;
     req_written := written this op |}.

(** The error a call throws when it fails validation. *)
Definition refusal (op : operation) : IDevJSError :=
  match op with
  | GetPostForUser options | CreatePost options =>
      if truthy options then missing_parameter "userId" else undefined_parameters
  | _ => undefined_parameters
  end.

(** The calls that go through [_acquireAccessToken]. *)
Definition exchanges_token (op : operation) : bool :=
  match op with
  | ExchangeAuthorizationCode _ _ | ExchangeRefreshToken _ => true
  | _ => false
  end.

(** The callback a call hands to [_makeRequest]: the caller's, wrapped by
    [_acquireAccessToken] for the token exchanges. *)
Definition bound_callback {R : Type} (op : operation) (callback : NodeCallback R)
  : NodeCallback R :=
  if exchanges_token op then _acquireAccessToken_callback R callback else callback.


(** ** Sample data for the worked examples *)

Definition sample_client : client :=
  {| options := VObj [("clientId", VStr "id"); ("clientSecret", VStr "secret")];
     _version := VStr "v1";
     _clientId := VStr "id";
     _clientSecret := VStr "secret";
     _accessToken := VStr "" |}.

(** The text [{"errors":[{"message":"Not Found","code":404}]}]. *)
Definition not_found_text : string :=
  "{" ++ Sample.q "errors" ++ ":[{" ++ Sample.q "message" ++ ":" ++ Sample.q "Not Found"
      ++ "," ++ Sample.q "code" ++ ":404}]}".

(** The text [{"data":0}]. *)
Definition zero_data_text : string := "{" ++ Sample.q "data" ++ ":0}".

(** The text [{"data":{"id":7}}]. *)
Definition user_data_text : string :=
  "{" ++ Sample.q "data" ++ ":{" ++ Sample.q "id" ++ ":7}}".

(** The text [{"access_token":"tok","refresh_token":"ref"}]. *)
Definition token_text : string :=
  "{" ++ Sample.q "access_token" ++ ":" ++ Sample.q "tok" ++ ","
      ++ Sample.q "refresh_token" ++ ":" ++ Sample.q "ref" ++ "}".

(** The option bag [{userId: 7, title: 'Hi', tags: ['a'], draft: true}]. *)
Definition sample_post : value :=
  VObj [ ("userId", VNum 7); ("title", VStr "Hi"); ("tags", VArr [VStr "a"]);
         ("draft", VBool true) ].

(** The text [{"errors":[null]}]. *)
Definition null_error_text : string := "{" ++ Sample.q "errors" ++ ":[null]}".

(** The request both token exchanges send, up to its body. *)
Definition token_request (this : client) (form : string) : ClientRequest :=
  {| req_host := "api.idevjs.com";
     req_port := 443;
     req_method := "POST";
     req_path := "/" ++ ToString (_version this) ++ "/oauth/tokens";
     req_headers :=
       [ ("Content-Type", VStr "application/x-www-form-urlencoded");
         ("Authorization", VStr ("Bearer " ++ ToString (_accessToken this)));
         ("Accept", VStr "application/json");
         ("Accept-Charset", VStr "utf-8") ];
     req_timeout := 5000;
     req_written := Some (VStr form) |}.

(** * Properties *)

(** ** Reading properties *)


Lemma get_not_nullish (o : value) (k : string) :
  o <> VUndefined -> o <> VNull -> exists v, get o k = Ok v.
Proof.
  destruct o; simpl; intros H1 H2; try congruence; eauto.
Qed.


Section ResponseProperties.

Variable JSON_parse : string -> option value.
Variable R : Type.
Variable callback : NodeCallback R.

Lemma family_2 (statusCode : Z) :
  200 <= statusCode < 300 -> statusCode / 100 = 2.
Proof.
  intros H. symmetry. apply (Z.div_unique statusCode 100 2 (statusCode - 200)); lia.
Qed.

Lemma family_4_5 (statusCode : Z) :
  400 <= statusCode < 600 -> statusCode / 100 = 4 \/ statusCode / 100 = 5.
Proof.
  intros H. destruct (Z_lt_ge_dec statusCode 500).
  - left. symmetry. apply (Z.div_unique statusCode 100 4 (statusCode - 400)); lia.
  - right. symmetry. apply (Z.div_unique statusCode 100 5 (statusCode - 500)); lia.
Qed.



(** C1, as the code has it.  A 2xx response whose body parses to a JSON
    value other than [null] delivers the [data] field of that value when the
    field is truthy, and the whole value otherwise. *)
Theorem on_end_success (this : client) (statusCode : Z) (body : list string)
    (payload : value) :
  200 <= statusCode < 300 ->
  JSON_parse (String.concat "" body) = Some payload ->
  payload <> VUndefined -> payload <> VNull ->
  exists data,
    get payload "data" = Ok data /\
    on_end JSON_parse R callback this statusCode body =
      callback this None (if truthy data then data else payload).
Proof.
  intros Hstatus Hparse Hundef Hnull.
  destruct (get_not_nullish payload "data" Hundef Hnull) as [data Hdata].
  exists data. split; [exact Hdata|].
  unfold on_end. rewrite Hparse. unfold classify.
  rewrite (family_2 _ Hstatus). simpl. rewrite Hdata. reflexivity.
Qed.

End ResponseProperties.



(** Counterexample to C1 as stated: on status 200 with the body [{"data":0}]
    the [data] field is present and is 0, yet the caller receives the whole
    parsed body. *)
Lemma on_end_success_falsy_data :
  Sample.parse zero_data_text = Some (VObj [("data", VNum 0)]) /\
  has_property (VObj [("data", VNum 0)]) "data" = true /\
  get (VObj [("data", VNum 0)]) "data" = Ok (VNum 0) /\
  on_end Sample.parse _ report sample_client 200 [zero_data_text] =
    Ok (sample_client, None, VObj [("data", VNum 0)]) /\
  on_end Sample.parse _ report sample_client 200 [zero_data_text] <>
    Ok (sample_client, None, VNum 0).
Proof.
  repeat split; try (vm_compute; reflexivity).
  vm_compute. discriminate.
Qed.

(** Worked example for C1 as the code has it: status 200 with the body
    [{"data":{"id":7}}]. *)
Lemma on_end_success_witness :
  exists data,
    get (VObj [("data", VObj [("id", VNum 7)])]) "data" = Ok data /\
    on_end Sample.parse _ report sample_client 200 [user_data_text] =
      report sample_client None
        (if truthy data then data else VObj [("data", VObj [("id", VNum 7)])]).
Proof.
  apply (on_end_success Sample.parse _ report sample_client 200 [user_data_text]).
  - lia.
  - vm_compute. reflexivity.
  - discriminate.
  - discriminate.
Defined.

(** ** The callback is called once, last *)

Section Listeners.

Variable JSON_parse : string -> option value.
Variable R : Type.
Variable callback : NodeCallback R.

(** Running a listener with [callback] is running it with [report] and
    passing what [report] saw to [callback]. *)
Lemma classify_report (this : client) (statusCode : Z) (payload : value) :
  classify R callback this statusCode payload =
    then_callback callback (classify _ report this statusCode payload).
Proof.
  unfold classify.
  destruct ((statusCode / 100 =? 4) || (statusCode / 100 =? 5)).
  - destruct (get payload "errors") as [errors|e]; simpl; [|reflexivity].
    destruct (get_index errors 0) as [err|e]; simpl; [|reflexivity].
    destruct (get err "message") as [message|e]; simpl; [|reflexivity].
    destruct (get err "code") as [code|e]; simpl; reflexivity.
  - destruct (statusCode / 100 =? 2); [|reflexivity].
    destruct (get payload "data") as [data|e]; simpl; reflexivity.
Qed.

Lemma on_end_report (this : client) (statusCode : Z) (body : list string) :
  on_end JSON_parse R callback this statusCode body =
    then_callback callback (on_end JSON_parse _ report this statusCode body).
Proof.
  unfold on_end. destruct (JSON_parse (String.concat "" body)) as [payload|].
  - apply classify_report.
  - reflexivity.
Qed.

Lemma listener_report (this options : _) (this' : client) (ev : transport_event) :
  forall x, In x (wire (_makeRequest JSON_parse R this options callback)) ->
  listener x this' ev = then_callback callback (completion JSON_parse this' ev).
Proof.
  intros x [<- | []]. destruct ev as [statusCode body | message]; simpl.
  - apply on_end_report.
  - reflexivity.
Qed.

End Listeners.



(** ** Token acquisition *)

Section Tokens.

Variable JSON_parse : string -> option value.
Variable R : Type.
Variable callback : NodeCallback R.



End Tokens.

(** ** Strings *)

Lemma append_nil_r (s : string) : s ++ "" = s.
Proof. induction s as [|c s IH]; simpl; [reflexivity | now rewrite IH]. Qed.

Lemma append_assoc (a b c : string) : (a ++ b) ++ c = a ++ b ++ c.
Proof. induction a as [|x a IH]; simpl; [reflexivity | now rewrite IH]. Qed.

Lemma append_eq_nil (a b : string) : a ++ b = "" -> a = "" /\ b = "".
Proof. destruct a; simpl; [auto | discriminate]. Qed.

Lemma concat_nonempty (sep e : string) (l : list string) :
  In e l -> e <> "" -> String.concat sep l <> "".
Proof.
  induction l as [|x xs IH]; intros Hin He; [destruct Hin|].
  destruct Hin as [-> | Hin].
  - simpl. destruct xs; [exact He|].
    intros H. apply append_eq_nil in H. tauto.
  - simpl. destruct xs as [|y ys]; [destruct Hin|].
    intros H. apply append_eq_nil in H. destruct H as [_ H].
    apply append_eq_nil in H. destruct H as [_ H]. now apply IH.
Qed.

(** A query with a property that is not an array is not empty. *)
Lemma qs_stringify_nonempty (props : list (string * value)) (k : string) (v : value) :
  In (k, v) props -> (forall elems, v <> VArr elems) ->
  qs_stringify (VObj props) <> "".
Proof.
  intros Hin Hv. simpl.
  apply (concat_nonempty "&" ((escape k ++ "=") ++ escape (stringifyPrimitive v))).
  - unfold qs_fields. apply in_flat_map. exists (k, v). split; [exact Hin|].
    simpl. destruct v as [| | | | |elems|]; try (left; reflexivity).
    now destruct (Hv elems).
  - intros H. apply append_eq_nil in H. destruct H as [H _].
    apply append_eq_nil in H. destruct H as [_ H]. discriminate.
Qed.

(** ** Validation *)

Lemma constructor_token (options : value) (this : client) :
  constructor options = Ok this -> _accessToken this = VStr "".
Proof.
  unfold constructor.
  destruct (_enforce _ _); simpl; [|discriminate].
  destruct (get _ "version"); simpl; [|discriminate].
  destruct (get _ "clientId"); simpl; [|discriminate].
  destruct (get _ "clientSecret"); simpl; [|discriminate].
  intros H. inversion H. reflexivity.
Qed.

Section Validation.

Variable JSON_parse : string -> option value.
Variable R : Type.
Variable callback : NodeCallback R.
Variable this : client.

(** C10.  A required field that is falsy (the empty string, 0, [false],
    [null]) is a missing field: [createPost] and [getPostForUser] throw the
    missing-parameter error for [userId] and put nothing on the wire, as
    they do when the field is left out; the constructor does the same for
    [clientId] and [clientSecret]. *)
Theorem falsy_required_field_is_missing (props : list (string * value)) :
  (truthy (lookup "userId" props) = false ->
     createPost JSON_parse R this (VObj props) callback =
       ([], Throw (Thrown (missing_parameter "userId"))) /\
     getPostForUser JSON_parse R this (VObj props) callback =
       ([], Throw (Thrown (missing_parameter "userId")))) /\
  (truthy (lookup "clientId" props) = false ->
     constructor (VObj props) = Throw (Thrown (missing_parameter "clientId"))) /\
  (truthy (lookup "clientId" props) = true ->
   truthy (lookup "clientSecret" props) = false ->
     constructor (VObj props) = Throw (Thrown (missing_parameter "clientSecret"))).
Proof.
  split; [|split].
  - intros Hfalsy.
    unfold createPost, getPostForUser, _enforce, io_bind, io_lift. simpl.
    rewrite Hfalsy. simpl. split; reflexivity.
  - intros Hfalsy. unfold constructor, _enforce. simpl. rewrite Hfalsy. reflexivity.
  - intros Hid Hfalsy. unfold constructor, _enforce. simpl.
    rewrite Hid. simpl. rewrite Hfalsy. reflexivity.
Qed.

(** C5, as the code has it.  The token exchanges check nothing: whatever
    their arguments, [undefined] included, they return normally after
    posting the form-encoded grant to [/oauth/tokens]. *)
Theorem exchange_posts_unchecked (code redirectUrl refreshToken : value) :
  (outcome (exchangeAuthorizationCode JSON_parse R this code redirectUrl callback) = Ok tt /\
   exists x,
     wire (exchangeAuthorizationCode JSON_parse R this code redirectUrl callback) = [x] /\
     req_method (request x) = "POST" /\
     req_path (request x) = "/" ++ ToString (_version this) ++ "/oauth/tokens" /\
     req_written (request x) =
       Some (VStr (qs_stringify
                     (VObj [ ("code", code);
                             ("client_id", _clientId this);
                             ("client_secret", _clientSecret this);
                             ("grant_type", VStr "authorization_code");
                             ("redirect_uri", redirectUrl) ])))) /\
  (outcome (exchangeRefreshToken JSON_parse R this refreshToken callback) = Ok tt /\
   exists x,
     wire (exchangeRefreshToken JSON_parse R this refreshToken callback) = [x] /\
     req_method (request x) = "POST" /\
     req_path (request x) = "/" ++ ToString (_version this) ++ "/oauth/tokens" /\
     req_written (request x) =
       Some (VStr (qs_stringify
                     (VObj [ ("refresh_token", refreshToken);
                             ("client_id", _clientId this);
                             ("client_secret", _clientSecret this);
                             ("grant_type", VStr "refresh_token") ])))).
Proof.
  split; (split; [reflexivity|]); eexists; (split; [reflexivity|]);
    (split; [reflexivity|]); (split; [reflexivity|]).
  - cbn [request req_written _makeRequest data typeof truthy].
    match goal with |- context [qs_stringify ?o] =>
      destruct (String.eqb_spec (qs_stringify o) "") as [E|E] end;
      [|reflexivity].
    exfalso. revert E.
    apply (qs_stringify_nonempty _ "grant_type" (VStr "authorization_code"));
      simpl; [tauto | discriminate].
  - cbn [request req_written _makeRequest data typeof truthy].
    match goal with |- context [qs_stringify ?o] =>
      destruct (String.eqb_spec (qs_stringify o) "") as [E|E] end;
      [|reflexivity].
    exfalso. revert E.
    apply (qs_stringify_nonempty _ "grant_type" (VStr "refresh_token"));
      simpl; [tauto | discriminate].
Qed.

(** C8.  Every request [_makeRequest] sends carries exactly four headers:
    [Content-Type], the descriptor's [contentType] or [application/json]
    when the descriptor has none; [Authorization], [Bearer] and the current
    access token, which is the empty string on an instance fresh from the
    constructor; [Accept: application/json]; [Accept-Charset: utf-8]. *)
Theorem makeRequest_headers (options : descriptor) :
  contentType options = VUndefined \/ truthy (contentType options) = true ->
  (exists x,
     wire (_makeRequest JSON_parse R this options callback) = [x] /\
     req_headers (request x) =
       [ ("Content-Type",
          match contentType options with
          | VUndefined => VStr "application/json"
          | given => given
          end);
         ("Authorization", VStr ("Bearer " ++ ToString (_accessToken this)));
         ("Accept", VStr "application/json");
         ("Accept-Charset", VStr "utf-8") ]) /\
  (forall arguments, constructor arguments = Ok this ->
     ToString (_accessToken this) = "").
Proof.
  intros Hct. split.
  - eexists. split; [reflexivity|]. simpl. unfold or_else.
    destruct Hct as [-> | Hct]; [reflexivity|].
    rewrite Hct. destruct (contentType options); try reflexivity; discriminate.
  - intros arguments Hnew. now rewrite (constructor_token _ _ Hnew).
Qed.


End Validation.

(** Every request of every call of the public interface carries the four
    headers, the content type being [application/json] but for the token
    exchanges. *)
Lemma call_headers (JSON_parse : string -> option value) (R : Type)
    (callback : NodeCallback R) (this : client) (op : operation) (x : exchange R) :
  In x (wire (call JSON_parse R this op callback)) ->
  req_headers (request x) =
    [ ("Content-Type",
       VStr match op with
            | ExchangeAuthorizationCode _ _ | ExchangeRefreshToken _ =>
                "application/x-www-form-urlencoded"
            | _ => "application/json"
            end);
      ("Authorization", VStr ("Bearer " ++ ToString (_accessToken this)));
      ("Accept", VStr "application/json");
      ("Accept-Charset", VStr "utf-8") ].
Proof.
  intros Hin.
  destruct op as [|o|o|code redirectUrl|refreshToken]; simpl in Hin.
  1,4,5: destruct Hin as [<- | []]; reflexivity.
  - unfold getPostForUser, _enforce, io_bind, io_lift, wire in Hin.
    destruct o; cbn -[_makeRequest] in Hin; try tauto;
      repeat match type of Hin with
             | context [if negb ?b then _ else _] =>
                 destruct b; cbn -[_makeRequest] in Hin; try tauto
             end;
      destruct Hin as [<- | []]; reflexivity.
  - unfold createPost, _enforce, io_bind, io_lift, wire in Hin.
    destruct o; cbn -[_makeRequest] in Hin; try tauto;
      repeat match type of Hin with
             | context [if negb ?b then _ else _] =>
                 destruct b; cbn -[_makeRequest] in Hin; try tauto
             end;
      destruct Hin as [<- | []]; reflexivity.
Qed.

(** ** The authorization URL *)

Lemma join_strings (sep : string) (names : list string) :
  join (VArr (map VStr names)) sep = Ok (String.concat sep names).
Proof.
  simpl. f_equal. f_equal. rewrite map_map. simpl. apply map_id.
Qed.

Lemma concat_empty_cons (x : string) (xs : list string) :
  String.concat "" (x :: xs) = x ++ String.concat "" xs.
Proof.
  destruct xs; simpl; [now rewrite append_nil_r | reflexivity].
Qed.

Lemma string_map_cons (f : ascii -> string) (c : ascii) (s : string) :
  string_map f (String c s) = f c ++ string_map f s.
Proof. unfold string_map. simpl. apply concat_empty_cons. Qed.

Lemma unescape_escape_char (c : ascii) (rest : string) :
  unescape (escape_char c ++ rest) = String c (unescape rest).
Proof. destruct c as [[] [] [] [] [] [] [] []]; reflexivity. Qed.

(** Percent-encoding loses nothing: a query value decodes to what was
    encoded. *)
Lemma unescape_escape (s : string) : unescape (escape s) = s.
Proof.
  induction s as [|c s IH]; [reflexivity|].
  unfold escape in *. rewrite string_map_cons, unescape_escape_char.
  now rewrite IH.
Qed.

Section Authorization.

Variable R : Type.
Variable this : client.

(** C6, as the code has it.  With its arguments in the order (state,
    redirectUrl, requestedScope), [getAuthorizationUrl] puts nothing on the
    wire and returns the https URL of the authorization endpoint whose query
    gives, percent-encoded, [client_id] the client's id, [scope] the
    comma-join of the requested scopes, [response_type] the word code,
    [state] the state and [redirect_uri] the redirect URL. *)
Theorem getAuthorizationUrl_query (id state redirectUrl : string) (scopes : list string) :
  _clientId this = VStr id ->
  getAuthorizationUrl R this (VStr state) (VStr redirectUrl) (VArr (map VStr scopes)) =
    ([], Ok ("https://api.idevjs.com/oauth/authorize"
             ++ "?client_id=" ++ escape id
             ++ "&scope=" ++ escape (String.concat "," scopes)
             ++ "&response_type=code"
             ++ "&state=" ++ escape state
             ++ "&redirect_uri=" ++ escape redirectUrl)).
Proof.
  intros Hid. unfold getAuthorizationUrl, io_lift.
  rewrite join_strings. rewrite Hid.
  unfold url_format, qs_stringify, qs_fields.
  cbn [bind query protocol host pathname flat_map fst snd app stringifyPrimitive
       String.concat].
  change (escape "client_id") with "client_id".
  change (escape "scope") with "scope".
  change (escape "response_type") with "response_type".
  change (escape "state") with "state".
  change (escape "redirect_uri") with "redirect_uri".
  change (escape "code") with "code".
  rewrite !append_assoc. simpl. reflexivity.
Qed.

End Authorization.

(** ** The body of createPost *)

Lemma JSON_stringify_obj (props : list (string * value)) :
  JSON_stringify (VObj props) =
    Some ("{" ++ String.concat "," (flat_map JSON_member props) ++ "}").
Proof. reflexivity. Qed.

(** [JSON.stringify] does not see the properties that are [undefined]. *)
Lemma JSON_members_defined (f : string -> value) (keys : list string) :
  flat_map JSON_member (map (fun k => (k, f k)) keys) =
  flat_map JSON_member
    (flat_map (fun k => match f k with VUndefined => [] | v => [(k, v)] end) keys).
Proof.
  induction keys as [|k keys IH]; [reflexivity|].
  cbn [map flat_map]. rewrite flat_map_app, IH. f_equal.
  destruct (f k); cbn [flat_map]; rewrite ?List.app_nil_r; reflexivity.
Qed.

Lemma supplied_spec (options : value) (k : string) (v : value) :
  In (k, v) (supplied options) <->
  In k post_fields /\ get options k = Ok v /\ v <> VUndefined.
Proof.
  unfold supplied. rewrite in_flat_map. split.
  - intros [k' [Hk Hin]].
    destruct (get options k') as [[]|] eqn:Hget; simpl in Hin;
      try tauto; destruct Hin as [Hin|[]]; inversion Hin; subst;
      (split; [exact Hk | split; [exact Hget | discriminate]]).
  - intros [Hk [Hget Hv]]. exists k. split; [exact Hk|].
    rewrite Hget. destruct v; try (left; reflexivity). congruence.
Qed.

Lemma existsb_filter (k : string) (f : string -> bool) (keys : list string) :
  existsb (String.eqb k) keys = false ->
  existsb (String.eqb k) (filter f keys) = false.
Proof.
  induction keys as [|a keys IH]; simpl; [reflexivity|].
  intros H. apply orb_false_elim in H. destruct H as [Ha Hkeys].
  destruct (f a); simpl; [rewrite Ha|]; auto.
Qed.

Lemma distinct_filter (f : string -> bool) (keys : list string) :
  distinct keys = true -> distinct (filter f keys) = true.
Proof.
  induction keys as [|a keys IH]; simpl; [reflexivity|].
  intros H. apply andb_prop in H. destruct H as [Ha Hkeys].
  destruct (f a); simpl; [|auto].
  apply negb_true_iff in Ha. rewrite (existsb_filter a f keys Ha). simpl. auto.
Qed.

(** The supplied fields are post fields, each at most once. *)
Lemma supplied_keys (options : value) :
  map fst (supplied options) =
    filter (fun k => match get options k with
                     | Ok VUndefined | Throw _ => false
                     | Ok _ => true
                     end) post_fields.
Proof.
  unfold supplied. induction post_fields as [|k keys IH]; simpl; [reflexivity|].
  rewrite map_app, IH. destruct (get options k) as [[]|]; reflexivity.
Qed.

Lemma supplied_distinct (options : value) :
  distinct (map fst (supplied options)) = true.
Proof. rewrite supplied_keys. now apply distinct_filter. Qed.

Section CreatePost.

Variable JSON_parse : string -> option value.
Variable R : Type.
Variable callback : NodeCallback R.
Variable this : client.

(** C9.  [createPost] with a [userId] posts to that user's posts the JSON
    text of exactly the object made of the post fields (title, content,
    contentFormat, tags, canonicalUrl, publishStatus, license) that the
    option bag supplies, each with the value supplied; a field left out is
    left out of the body, and nothing else is in it.  When the supplied
    values are JSON values, a parser that inverts [JSON.stringify] reads the
    body back as that object. *)
Theorem createPost_body (options userId : value) :
  get options "userId" = Ok userId ->
  truthy userId = true ->
  outcome (createPost JSON_parse R this options callback) = Ok tt /\
  exists x text,
    wire (createPost JSON_parse R this options callback) = [x] /\
    req_method (request x) = "POST" /\
    req_path (request x) =
      "/" ++ ToString (_version this) ++ "/users/" ++ ToString userId ++ "/posts" /\
    JSON_stringify (VObj (supplied options)) = Some text /\
    req_written (request x) = Some (VStr text) /\
    (reads_back JSON_parse ->
     forallb (fun kv => json (snd kv)) (supplied options) = true ->
     JSON_parse text = Some (VObj (supplied options))).
Proof.
  intros Hget Htruthy.
  destruct options as [| | | | s | elems | props]; simpl in Hget;
    try discriminate; inversion Hget; subst userId; try discriminate.
  unfold createPost, _enforce, io_bind, io_lift, outcome, wire.
  cbn [truthy negb get fst snd _enforce_keys bind]. rewrite Htruthy.
  cbn [negb fst snd app]. split; [reflexivity|].
  eexists. exists ("{" ++ String.concat "," (flat_map JSON_member (supplied (VObj props))) ++ "}").
  split; [reflexivity|]. split; [reflexivity|]. split; [reflexivity|].
  split; [reflexivity|]. split.
  - cbn [_makeRequest fst request req_written data truthy typeof].
    rewrite JSON_stringify_obj. do 5 f_equal.
    change (flat_map JSON_member (map (fun k => (k, lookup k props)) post_fields) =
            flat_map JSON_member (supplied (VObj props))).
    rewrite JSON_members_defined. f_equal. unfold supplied.
    apply flat_map_ext. intros k. simpl. destruct (lookup k props); reflexivity.
  - intros Hparse Hjson. apply Hparse; [|apply JSON_stringify_obj].
    simpl. rewrite Hjson. apply supplied_distinct.
Qed.

End CreatePost.

(** ** Error codes *)





Section Codes.

Variable JSON_parse : string -> option value.
Variable R : Type.



End Codes.

(** ** The reader reads back what JSON.stringify writes *)

Section ValueInduction.

Variable P : value -> Prop.
Hypothesis Hundefined : P VUndefined.
Hypothesis Hnull : P VNull.
Hypothesis Hbool : forall b, P (VBool b).
Hypothesis Hnum : forall n, P (VNum n).
Hypothesis Hstr : forall s, P (VStr s).
Hypothesis Harr : forall elems, Forall P elems -> P (VArr elems).
Hypothesis Hobj : forall props, Forall (fun kv => P (snd kv)) props -> P (VObj props).

Fixpoint value_nested_ind (v : value) : P v :=
  match v with
  | VUndefined => Hundefined
  | VNull => Hnull
  | VBool b => Hbool b
  | VNum n => Hnum n
  | VStr s => Hstr s
  | VArr elems =>
      Harr elems
        ((fix all (l : list value) : Forall P l :=
            match l with
            | [] => Forall_nil P
            | e :: l' => Forall_cons e (value_nested_ind e) (all l')
            end) elems)
  | VObj props =>
      Hobj props
        ((fix all (l : list (string * value)) : Forall (fun kv => P (snd kv)) l :=
            match l with
            | [] => Forall_nil _
            | kv :: l' => Forall_cons kv (value_nested_ind (snd kv)) (all l')
            end) props)
  end.

End ValueInduction.

Section ReadBack.

Local Open Scope list_scope.

Lemma chars_app (a b : string) :
  list_ascii_of_string (a ++ b)%string = list_ascii_of_string a ++ list_ascii_of_string b.
Proof. induction a as [|c a IH]; simpl; [reflexivity | now rewrite IH]. Qed.

(** *** Strings *)

Lemma string_body_escape_char (c : ascii) (tail : list ascii) :
  Sample.string_body (list_ascii_of_string (JSON_escape_char c) ++ tail) =
    Sample.push (Some c) (Sample.string_body tail).
Proof. destruct c as [[] [] [] [] [] [] [] []]; reflexivity. Qed.

Lemma string_body_escaped (s : string) (rest : list ascii) :
  Sample.string_body
    (list_ascii_of_string (string_map JSON_escape_char s) ++ dquote :: rest) =
    Some (s, rest).
Proof.
  induction s as [|c s IH]; [reflexivity|].
  rewrite string_map_cons, chars_app, <- List.app_assoc, string_body_escape_char, IH.
  reflexivity.
Qed.

Lemma string_body_quote (s : string) (rest : list ascii) :
  exists body,
    list_ascii_of_string (JSON_quote s) ++ rest = dquote :: body /\
    Sample.string_body body = Some (s, rest).
Proof.
  exists (list_ascii_of_string (string_map JSON_escape_char s) ++ dquote :: rest).
  split; [|apply string_body_escaped].
  unfold JSON_quote. simpl. rewrite chars_app, <- List.app_assoc. reflexivity.
Qed.

(** *** Numbers *)

Lemma follows_digit (rest : list ascii) :
  follows rest ->
  match rest with
  | c :: _ =>
      Sample.digit_of c = None /\
      existsb (Ascii.eqb c) ["."; "e"; "E"]%char = false /\
      Sample.is_ws c = false
  | [] => True
  end.
Proof.
  destruct rest as [|c rest]; [trivial|].
  intros [-> | [-> | ->]]; repeat split.
Qed.

Lemma read_uint_digits (d : Decimal.uint) (rest : list ascii) :
  follows rest ->
  Sample.read_uint (list_ascii_of_string (NilEmpty.string_of_uint d) ++ rest) = (d, rest).
Proof.
  intros Hrest. apply follows_digit in Hrest.
  induction d; simpl; try (rewrite IHd; reflexivity).
  destruct rest as [|c rest]; [reflexivity|].
  simpl. destruct Hrest as [-> _]. reflexivity.
Qed.

Lemma to_uint_normal (p : positive) : Decimal.unorm (Pos.to_uint p) = Pos.to_uint p.
Proof.
  rewrite <- DecimalPos.Unsigned.to_of, DecimalPos.Unsigned.of_to. reflexivity.
Qed.

Lemma to_uint_head (p : positive) :
  match Pos.to_uint p with
  | Decimal.Nil | Decimal.D0 _ => False
  | _ => True
  end.
Proof.
  pose proof (to_uint_normal p) as Hnorm.
  pose proof (DecimalPos.Unsigned.to_uint_nonzero p) as Hzero.
  pose proof (DecimalPos.Unsigned.to_uint_nonnil p) as Hnil.
  destruct (Pos.to_uint p) as [|d| | | | | | | | |]; try exact I.
  - now apply Hnil.
  - rewrite DecimalFacts.unorm_D0 in Hnorm.
    destruct (Decimal.uint_eq_dec d Decimal.Nil) as [-> | Hd].
    + now apply Hzero.
    + pose proof (DecimalFacts.nb_digits_unorm d Hd) as Hlen.
      rewrite Hnorm in Hlen. simpl in Hlen. lia.
Qed.

Lemma follows_fraction (rest : list ascii) :
  follows rest -> Sample.fraction_follows rest = false.
Proof.
  intros Hrest. apply follows_digit in Hrest.
  destruct rest; [reflexivity | apply Hrest].
Qed.

Lemma natural_digits (d : Decimal.uint) (rest : list ascii) :
  follows rest -> d <> Decimal.Nil -> Sample.leading_zero d = false ->
  Sample.natural (list_ascii_of_string (NilEmpty.string_of_uint d) ++ rest) =
    Some (N.of_uint d, rest).
Proof.
  intros Hrest Hd Hzero. unfold Sample.natural.
  rewrite (read_uint_digits _ _ Hrest), Hzero, (follows_fraction _ Hrest).
  destruct d; [now destruct Hd | reflexivity ..].
Qed.

Lemma to_uint_digits (p : positive) :
  Pos.to_uint p <> Decimal.Nil /\
  Sample.leading_zero (Pos.to_uint p) = false /\
  NilZero.string_of_uint (Pos.to_uint p) = NilEmpty.string_of_uint (Pos.to_uint p).
Proof.
  pose proof (to_uint_head p) as Hp.
  destruct (Pos.to_uint p); try destruct Hp; repeat split; discriminate.
Qed.

Lemma natural_text (n : N) (rest : list ascii) :
  follows rest ->
  Sample.natural (list_ascii_of_string (NilZero.string_of_uint (N.to_uint n)) ++ rest) =
    Some (n, rest).
Proof.
  intros Hrest. destruct n as [|p].
  - exact (natural_digits (Decimal.D0 Decimal.Nil) rest Hrest
             ltac:(discriminate) eq_refl).
  - destruct (to_uint_digits p) as [Hnil [Hzero Htext]].
    simpl N.to_uint. rewrite Htext, (natural_digits _ _ Hrest Hnil Hzero).
    unfold N.of_uint. now rewrite DecimalPos.Unsigned.of_to.
Qed.

Lemma element_digits (fuel : nat) (d : Decimal.uint) (rest : list ascii) :
  d <> Decimal.Nil ->
  Sample.element (S fuel) (list_ascii_of_string (NilEmpty.string_of_uint d) ++ rest) =
    match Sample.natural (list_ascii_of_string (NilEmpty.string_of_uint d) ++ rest) with
    | Some (n, tail) => Some (VNum (Z.of_N n), tail)
    | None => None
    end.
Proof.
  intros Hd. destruct d; [now destruct Hd | reflexivity ..].
Qed.

Lemma element_number (fuel : nat) (n : Z) (rest : list ascii) :
  follows rest ->
  Sample.element (S fuel) (list_ascii_of_string (Number_toString n) ++ rest) =
    Some (VNum n, rest).
Proof.
  intros Hrest. unfold Number_toString. destruct n as [|p|p].
  - change (NilZero.string_of_int (Z.to_int 0))
      with (NilEmpty.string_of_uint (Decimal.D0 Decimal.Nil)).
    rewrite element_digits by discriminate.
    now rewrite (natural_digits (Decimal.D0 Decimal.Nil) rest Hrest
                   ltac:(discriminate) eq_refl).
  - destruct (to_uint_digits p) as [Hnil [_ Htext]].
    pose proof (natural_text (Npos p) rest Hrest) as Hnat.
    simpl N.to_uint in Hnat. rewrite Htext in Hnat.
    simpl Z.to_int. simpl NilZero.string_of_int. rewrite Htext.
    rewrite (element_digits _ _ _ Hnil), Hnat. reflexivity.
  - pose proof (natural_text (Npos p) rest Hrest) as Hnat.
    simpl N.to_uint in Hnat.
    simpl Z.to_int. simpl NilZero.string_of_int.
    change (Sample.element (S fuel)
              ("-"%char :: list_ascii_of_string (NilZero.string_of_uint (Pos.to_uint p)) ++ rest)
            = Some (VNum (Z.neg p), rest)).
    cbn [Sample.element Sample.skip_ws]. 
    change (Sample.is_ws "-") with false. cbv iota.
    change (Ascii.eqb "-" dquote) with false.
    change (Ascii.eqb "-" "[") with false.
    change (Ascii.eqb "-" "{") with false.
    change (Ascii.eqb "-" "-") with true. cbv iota.
    rewrite Hnat. reflexivity.
Qed.

(** *** Texts *)

Lemma json_stringify (v : value) :
  json v = true -> JSON_stringify v = Some (text_of v).
Proof.
  unfold text_of. destruct v as [| | [] | | | |]; simpl; try discriminate; reflexivity.
Qed.

Lemma text_of_array (elems : list value) :
  text_of (VArr elems) = ("[" ++ String.concat "," (map text_of elems) ++ "]")%string.
Proof. reflexivity. Qed.

Lemma members_json (props : list (string * value)) :
  forallb (fun kv => json (snd kv)) props = true ->
  flat_map JSON_member props = map member_text props.
Proof.
  induction props as [|[k v] props IH]; simpl; [reflexivity|].
  intros H. apply andb_prop in H. destruct H as [Hv Hprops].
  rewrite (IH Hprops). unfold JSON_member, member_text. simpl.
  rewrite (json_stringify v Hv). reflexivity.
Qed.

Lemma text_of_object (props : list (string * value)) :
  forallb (fun kv => json (snd kv)) props = true ->
  text_of (VObj props) = ("{" ++ String.concat "," (map member_text props) ++ "}")%string.
Proof.
  intros H. unfold text_of. rewrite JSON_stringify_obj, (members_json props H).
  reflexivity.
Qed.

Lemma opens_number (n : Z) : opens (list_ascii_of_string (Number_toString n)).
Proof.
  unfold Number_toString. destruct n as [|p|p]; simpl.
  - do 2 eexists. repeat split.
  - destruct (to_uint_digits p) as [Hnil [_ ->]].
    destruct (Pos.to_uint p); [now destruct Hnil | ..]; simpl;
      do 2 eexists; repeat split.
  - do 2 eexists. repeat split.
Qed.

Lemma opens_text (v : value) : json v = true -> opens (list_ascii_of_string (text_of v)).
Proof.
  destruct v as [| | [] | n | s | elems | props]; intros H; try discriminate H.
  1-3: do 2 eexists; repeat split.
  - apply opens_number.
  - do 2 eexists. repeat split.
  - rewrite text_of_array. do 2 eexists. repeat split.
  - simpl in H. apply andb_prop in H. rewrite (text_of_object props (proj1 H)).
    do 2 eexists. repeat split.
Qed.

Lemma opens_app (s rest : list ascii) : opens s -> opens (s ++ rest).
Proof. intros [c [t [-> H]]]. exists c, (t ++ rest). split; [reflexivity | exact H]. Qed.

Lemma skip_ws_opens (s : list ascii) : opens s -> Sample.skip_ws s = s.
Proof. intros [c [t [-> [Hws _]]]]. simpl. now rewrite Hws. Qed.

Lemma opens_concat (x : value) (r : list value) :
  json x = true ->
  opens (list_ascii_of_string (String.concat "," (map text_of (x :: r)))).
Proof.
  intros Hx. simpl. destruct (map text_of r).
  - now apply opens_text.
  - rewrite chars_app. apply opens_app. now apply opens_text.
Qed.

(** *** Keys *)

Lemma set_prop_fresh (k : string) (v : value) (acc : list (string * value)) :
  existsb (String.eqb k) (map fst acc) = false ->
  Sample.set_prop k v acc = acc ++ [(k, v)].
Proof.
  induction acc as [|[k' v'] acc IH]; simpl; [reflexivity|].
  intros H. apply orb_false_elim in H. destruct H as [Hk Hacc].
  rewrite Hk, (IH Hacc). reflexivity.
Qed.

Lemma distinct_middle (before : list string) (k : string) (behind : list string) :
  distinct (before ++ k :: behind) = true ->
  existsb (String.eqb k) before = false.
Proof.
  induction before as [|a before IH]; simpl; [reflexivity|].
  intros H. apply andb_prop in H. destruct H as [Ha Hrest].
  rewrite (IH Hrest), orb_false_r.
  apply negb_true_iff in Ha. rewrite existsb_app in Ha.
  apply orb_false_elim in Ha. destruct Ha as [_ Ha]. simpl in Ha.
  apply orb_false_elim in Ha. rewrite String.eqb_sym. apply Ha.
Qed.

(** *** The reader, one step at a time *)

Lemma element_string (fuel : nat) (body : list ascii) :
  Sample.element (S fuel) (dquote :: body) =
    match Sample.string_body body with
    | Some (str, tail) => Some (VStr str, tail)
    | None => None
    end.
Proof. reflexivity. Qed.

Lemma element_array (fuel : nat) (body : list ascii) :
  Sample.element (S fuel) ("["%char :: body) =
    match Sample.skip_ws body with
    | d :: tail =>
        if Ascii.eqb d "]" then Some (VArr [], tail)
        else match Sample.elements fuel body with
             | Some (vs, tail') => Some (VArr vs, tail')
             | None => None
             end
    | [] => None
    end.
Proof. reflexivity. Qed.

Lemma element_object (fuel : nat) (body : list ascii) :
  Sample.element (S fuel) ("{"%char :: body) =
    match Sample.skip_ws body with
    | d :: tail =>
        if Ascii.eqb d "}" then Some (VObj [], tail)
        else match Sample.members fuel [] body with
             | Some (ps, tail') => Some (VObj ps, tail')
             | None => None
             end
    | [] => None
    end.
Proof. reflexivity. Qed.

Lemma elements_step (fuel : nat) (s : list ascii) :
  Sample.elements (S fuel) s =
    match Sample.element fuel s with
    | Some (v, tail) =>
        match Sample.skip_ws tail with
        | d :: tail' =>
            if Ascii.eqb d "," then
              match Sample.elements fuel tail' with
              | Some (vs, tail'') => Some (v :: vs, tail'')
              | None => None
              end
            else if Ascii.eqb d "]" then Some ([v], tail')
            else None
        | [] => None
        end
    | None => None
    end.
Proof. reflexivity. Qed.

Lemma members_step (fuel : nat) (acc : list (string * value)) (body : list ascii) :
  Sample.members (S fuel) acc (dquote :: body) =
    match Sample.string_body body with
    | Some (k, tail) =>
        match Sample.skip_ws tail with
        | colon :: tail' =>
            if Ascii.eqb colon ":" then
              match Sample.element fuel tail' with
              | Some (v, tail'') =>
                  match Sample.skip_ws tail'' with
                  | d :: tail3 =>
                      if Ascii.eqb d "," then
                        Sample.members fuel (Sample.set_prop k v acc) tail3
                      else if Ascii.eqb d "}" then Some (Sample.set_prop k v acc, tail3)
                      else None
                  | [] => None
                  end
              | None => None
              end
            else None
        | [] => None
        end
    | None => None
    end.
Proof. reflexivity. Qed.

(** *** Arrays and objects *)

Lemma elements_text (x : value) (r : list value) :
  Forall (fun e => json e = true /\ reads e) (x :: r) ->
  forall fuel rest,
    (list_sum (map (fun e => S (bound e)) (x :: r)) <= fuel)%nat ->
    Sample.elements fuel
      (list_ascii_of_string (String.concat "," (map text_of (x :: r))) ++ "]"%char :: rest) =
      Some (x :: r, rest).
Proof.
  revert x. induction r as [|y r IH]; intros x Hall fuel rest Hfuel;
    inversion Hall as [|? ? [Hx Hreads] Hr]; subst;
    (destruct fuel as [|fuel]; [simpl in Hfuel; lia|]); rewrite elements_step.
  - simpl map. simpl String.concat.
    rewrite Hreads; [reflexivity | simpl in Hfuel; lia | right; left; reflexivity].
  - change (String.concat "," (map text_of (x :: y :: r)))
      with (text_of x ++ "," ++ String.concat "," (map text_of (y :: r)))%string.
    rewrite chars_app, <- List.app_assoc.
    rewrite Hreads; [| simpl in Hfuel; lia | left; reflexivity].
    cbn [list_ascii_of_string String.append app Sample.skip_ws].
    change (Sample.is_ws ",") with false. cbv iota.
    change (Ascii.eqb "," ",") with true. cbv iota.
    rewrite (IH y Hr); [reflexivity|].
    simpl in Hfuel |- *. lia.
Qed.

Lemma members_text (kv : string * value) (r : list (string * value)) :
  Forall (fun kv => json (snd kv) = true /\ reads (snd kv)) (kv :: r) ->
  forall fuel acc rest,
    distinct (map fst (acc ++ kv :: r)) = true ->
    (list_sum (map (fun kv => S (bound (snd kv))) (kv :: r)) <= fuel)%nat ->
    Sample.members fuel acc
      (list_ascii_of_string (String.concat "," (map member_text (kv :: r)))
         ++ "}"%char :: rest) =
      Some (acc ++ kv :: r, rest).
Proof.
  revert kv. induction r as [|kv' r IH]; intros [k v] Hall fuel acc rest Hkeys Hfuel;
    inversion Hall as [|? ? [Hv Hreads] Hr]; subst; simpl in Hv, Hreads;
    (destruct fuel as [|fuel]; [simpl in Hfuel; lia|]);
    assert (Hfresh : Sample.set_prop k v acc = acc ++ [(k, v)])
      by (apply set_prop_fresh; rewrite map_app in Hkeys;
          exact (distinct_middle _ _ _ Hkeys)).
  - simpl map. simpl String.concat. unfold member_text. simpl fst. simpl snd.
    rewrite !chars_app, <- !List.app_assoc.
    match goal with
    | |- context [list_ascii_of_string (JSON_quote k) ++ ?tl] =>
        destruct (string_body_quote k tl) as [body [Hbody Hread]];
        rewrite Hbody, members_step, Hread
    end.
    cbn [list_ascii_of_string app Sample.skip_ws].
    change (Sample.is_ws ":") with false. cbv iota.
    change (Ascii.eqb ":" ":") with true. cbv iota.
    rewrite Hreads; [| simpl in Hfuel; lia | right; right; reflexivity].
    rewrite Hfresh. reflexivity.
  - change (String.concat "," (map member_text ((k, v) :: kv' :: r)))
      with (member_text (k, v) ++ "," ++ String.concat "," (map member_text (kv' :: r)))%string.
    unfold member_text at 1. simpl fst. simpl snd.
    rewrite !chars_app, <- !List.app_assoc.
    match goal with
    | |- context [list_ascii_of_string (JSON_quote k) ++ ?tl] =>
        destruct (string_body_quote k tl) as [body [Hbody Hread]];
        rewrite Hbody, members_step, Hread
    end.
    cbn [list_ascii_of_string app Sample.skip_ws].
    change (Sample.is_ws ":") with false. cbv iota.
    change (Ascii.eqb ":" ":") with true. cbv iota.
    rewrite Hreads; [| simpl in Hfuel; lia | left; reflexivity].
    cbn [Sample.skip_ws].
    change (Sample.is_ws ",") with false. cbv iota.
    change (Ascii.eqb "," ",") with true. cbv iota.
    rewrite Hfresh.
    rewrite (IH kv' Hr fuel (acc ++ [(k, v)]) rest).
    + rewrite <- List.app_assoc. reflexivity.
    + rewrite <- List.app_assoc. exact Hkeys.
    + simpl in Hfuel |- *. lia.
Qed.

Lemma Forall_json_reads (P : value -> Prop) (elems : list value) :
  Forall (fun e => json e = true -> P e) elems ->
  forallb json elems = true ->
  Forall (fun e => json e = true /\ P e) elems.
Proof.
  induction 1 as [|e elems He _ IH]; simpl; intros H; constructor;
    apply andb_prop in H; destruct H as [Hjson Hrest]; auto.
Qed.

Lemma Forall_json_reads_props (P : value -> Prop) (props : list (string * value)) :
  Forall (fun kv => json (snd kv) = true -> P (snd kv)) props ->
  forallb (fun kv => json (snd kv)) props = true ->
  Forall (fun kv => json (snd kv) = true /\ P (snd kv)) props.
Proof.
  induction 1 as [|kv props Hkv _ IH]; simpl; intros H; constructor;
    apply andb_prop in H; destruct H as [Hjson Hrest]; auto.
Qed.

(** The reader reads back the text of every JSON value. *)
Lemma element_text (v : value) : json v = true -> reads v.
Proof.
  induction v as [| | b | n | s | elems IH | props IH] using value_nested_ind;
    intros Hjson fuel rest Hfuel Hrest; try discriminate Hjson;
    (destruct fuel as [|fuel]; [simpl in Hfuel; lia|]).
  - reflexivity.
  - destruct b; reflexivity.
  - now apply element_number.
  - destruct (string_body_quote s rest) as [body [Hbody Hread]].
    change (text_of (VStr s)) with (JSON_quote s).
    now rewrite Hbody, element_string, Hread.
  - simpl in Hjson. pose proof (Forall_json_reads _ _ IH Hjson) as Hall.
    rewrite text_of_array, !chars_app, <- !List.app_assoc.
    cbn [list_ascii_of_string app]. rewrite element_array.
    destruct elems as [|x r]; [reflexivity|].
    inversion Hall as [|? ? [Hx _] _]; subst.
    pose proof (opens_app _ ("]"%char :: rest) (opens_concat x r Hx)) as Hopen.
    rewrite (skip_ws_opens _ Hopen).
    destruct Hopen as [c [t [Heq [_ Hclose]]]].
    rewrite Heq at 1. rewrite Hclose.
    rewrite (elements_text x r Hall); [reflexivity|].
    simpl in Hfuel |- *. lia.
  - simpl in Hjson. apply andb_prop in Hjson. destruct Hjson as [Hjson Hkeys].
    pose proof (Forall_json_reads_props _ _ IH Hjson) as Hall.
    rewrite (text_of_object props Hjson), !chars_app, <- !List.app_assoc.
    cbn [list_ascii_of_string app]. rewrite element_object.
    destruct props as [|[k v] r]; [reflexivity|].
    assert (Hopen : exists t,
               list_ascii_of_string
                 (String.concat "," (map member_text ((k, v) :: r))) ++ "}"%char :: rest
               = dquote :: t).
    { simpl. destruct (map member_text r); unfold member_text, JSON_quote; simpl;
        eexists; reflexivity. }
    destruct Hopen as [t Heq].
    rewrite Heq at 1. cbn [Sample.skip_ws].
    change (Sample.is_ws dquote) with false. cbv iota.
    change (Ascii.eqb dquote "}") with false. cbv iota.
    rewrite (members_text (k, v) r Hall fuel [] rest); [reflexivity | exact Hkeys |].
    simpl in Hfuel |- *. lia.
Qed.

(** *** Fuel *)

Lemma chars_length (a b : string) :
  length (list_ascii_of_string (a ++ b)%string) =
    (length (list_ascii_of_string a) + length (list_ascii_of_string b))%nat.
Proof. now rewrite chars_app, length_app. Qed.

Lemma bound_text (v : value) :
  json v = true -> (bound v <= length (list_ascii_of_string (text_of v)))%nat.
Proof.
  induction v as [| | b | n | s | elems IH | props IH] using value_nested_ind;
    intros Hjson; try discriminate Hjson.
  - simpl. lia.
  - destruct b; simpl; lia.
  - destruct (opens_number n) as [c [t [Heq _]]].
    change (text_of (VNum n)) with (Number_toString n). rewrite Heq. simpl. lia.
  - simpl. lia.
  - simpl in Hjson. pose proof (Forall_json_reads _ _ IH Hjson) as Hall.
    rewrite text_of_array, !chars_length. simpl length.
    assert (Hsum : (list_sum (map (fun e => S (bound e)) elems)
                    <= S (length (list_ascii_of_string
                                     (String.concat "," (map text_of elems)))))%nat).
    { clear IH Hjson. induction Hall as [|x r [_ Hx] Hr IHr]; [simpl; lia|].
      destruct r as [|y r].
      - simpl. lia.
      - change (String.concat "," (map text_of (x :: y :: r)))
          with (text_of x ++ "," ++ String.concat "," (map text_of (y :: r)))%string.
        rewrite !chars_length. simpl in IHr |- *. lia. }
    simpl. lia.
  - simpl in Hjson. apply andb_prop in Hjson. destruct Hjson as [Hjson _].
    pose proof (Forall_json_reads_props
                  (fun v => (bound v <= length (list_ascii_of_string (text_of v)))%nat)
                  _ IH Hjson) as Hall.
    rewrite (text_of_object props Hjson), !chars_length. simpl length.
    assert (Hsum : (list_sum (map (fun kv => S (bound (snd kv))) props)
                    <= S (length (list_ascii_of_string
                                     (String.concat "," (map member_text props)))))%nat).
    { clear IH Hjson. induction Hall as [|[k x] r [_ Hx] Hr IHr]; [simpl; lia|].
      simpl in Hx.
      destruct r as [|y r].
      - simpl. unfold member_text. simpl fst. simpl snd. rewrite !chars_length.
        cbn [list_ascii_of_string length]. lia.
      - change (String.concat "," (map member_text ((k, x) :: y :: r)))
          with (member_text (k, x) ++ "," ++
                String.concat "," (map member_text (y :: r)))%string.
        unfold member_text at 1. simpl fst. simpl snd.
        rewrite !chars_length. cbn [list_ascii_of_string length].
        set (others := String.concat "," (map member_text (y :: r))) in *.
        simpl in IHr |- *. lia. }
    simpl. lia.
Qed.

(** The reader reads back what [JSON_stringify] writes. *)
Lemma parse_reads_back : reads_back Sample.parse.
Proof.
  intros v text Hjson Htext.
  rewrite (json_stringify v Hjson) in Htext. inversion Htext; subst text.
  unfold Sample.parse.
  pose proof (element_text v Hjson (S (length (list_ascii_of_string (text_of v)))) []) as H.
  rewrite List.app_nil_r in H.
  rewrite H; [reflexivity | | exact I].
  pose proof (bound_text v Hjson). lia.
Qed.

End ReadBack.

(** ** Worked examples *)

(** Counterexample to C5 as stated: called with no arguments at all, both
    token exchanges return normally and post the grant, its missing fields
    empty. *)
Lemma exchange_without_arguments :
  outcome (exchangeAuthorizationCode Sample.parse _ sample_client VUndefined VUndefined report)
    = Ok tt /\
  map request
      (wire (exchangeAuthorizationCode Sample.parse _ sample_client VUndefined VUndefined report))
    = [ token_request sample_client
          "code=&client_id=id&client_secret=secret&grant_type=authorization_code&redirect_uri=" ] /\
  outcome (exchangeRefreshToken Sample.parse _ sample_client VUndefined report) = Ok tt /\
  map request (wire (exchangeRefreshToken Sample.parse _ sample_client VUndefined report))
    = [ token_request sample_client
          "refresh_token=&client_id=id&client_secret=secret&grant_type=refresh_token" ].
Proof. repeat split. Qed.

(** Counterexample to C6 as stated: with the arguments in the order
    (redirectUrl, requestedScopes, state) the call throws, the state string
    having no [join]. *)
Lemma getAuthorizationUrl_readme_order :
  getAuthorizationUrl unit sample_client
    (VStr "http://cb") (VArr [VStr Scope.BASIC_PROFILE; VStr Scope.PUBLISH_POST])
    (VStr "s1")
  = ([], Throw (TypeError "join is not a function")).
Proof. reflexivity. Qed.

(** Worked example for C6 as the code has it. *)
Lemma getAuthorizationUrl_query_witness :
  getAuthorizationUrl unit sample_client
    (VStr "s1") (VStr "http://cb") (VArr [VStr Scope.BASIC_PROFILE; VStr Scope.PUBLISH_POST])
  = ([], Ok ("https://api.idevjs.com/oauth/authorize?client_id=id"
             ++ "&scope=basicProfile%2CpublishPost&response_type=code"
             ++ "&state=s1&redirect_uri=http%3A%2F%2Fcb")).
Proof.
  exact (getAuthorizationUrl_query unit sample_client "id" "s1" "http://cb"
           [Scope.BASIC_PROFILE; Scope.PUBLISH_POST] eq_refl).
Defined.

(** Worked example for C8: the request of [getUser] on a fresh instance. *)
Lemma makeRequest_headers_witness :
  (exists x,
     wire (getUser Sample.parse _ sample_client report) = [x] /\
     req_headers (request x) =
       [ ("Content-Type", VStr "application/json");
         ("Authorization", VStr "Bearer ");
         ("Accept", VStr "application/json");
         ("Accept-Charset", VStr "utf-8") ]) /\
  (forall arguments, constructor arguments = Ok sample_client ->
     ToString (_accessToken sample_client) = "").
Proof.
  exact (makeRequest_headers Sample.parse _ report sample_client
           {| method := "GET"; path := "/me"; contentType := VUndefined; data := VUndefined |}
           (or_introl eq_refl)).
Defined.

(** Worked example for C9: [userId] goes to the path, [draft] is not a post
    field, the five fields left out are left out, and the body reads back
    as the object of the two fields supplied. *)
Lemma createPost_body_witness :
  outcome (createPost Sample.parse _ sample_client sample_post report) = Ok tt /\
  exists x text,
    wire (createPost Sample.parse _ sample_client sample_post report) = [x] /\
    req_method (request x) = "POST" /\
    req_path (request x) = "/v1/users/7/posts" /\
    JSON_stringify (VObj [("title", VStr "Hi"); ("tags", VArr [VStr "a"])]) = Some text /\
    req_written (request x) = Some (VStr text) /\
    Sample.parse text = Some (VObj [("title", VStr "Hi"); ("tags", VArr [VStr "a"])]).
Proof.
  destruct (createPost_body Sample.parse _ report sample_client sample_post (VNum 7)
              eq_refl eq_refl)
    as [Hout [x [text [Hwire [Hmethod [Hpath [Htext [Hwritten Hback]]]]]]]].
  split; [exact Hout|]. exists x, text.
  repeat (split; [assumption|]).
  exact (Hback parse_reads_back eq_refl).
Defined.

(** The text of that body. *)
Example createPost_body_text :
  map (fun x => req_written (request x))
      (wire (createPost Sample.parse _ sample_client sample_post report))
  = [Some (VStr ("{" ++ Sample.q "title" ++ ":" ++ Sample.q "Hi" ++ ","
                     ++ Sample.q "tags" ++ ":[" ++ Sample.q "a" ++ "]}"))].
Proof. reflexivity. Qed.

(** Worked example for C10: an empty [userId] and no [userId]. *)
Lemma falsy_required_field_witness :
  (createPost Sample.parse _ sample_client (VObj [("userId", VStr ""); ("title", VStr "Hi")])
     report = ([], Throw (Thrown (missing_parameter "userId"))) /\
   getPostForUser Sample.parse _ sample_client (VObj [("userId", VStr ""); ("title", VStr "Hi")])
     report = ([], Throw (Thrown (missing_parameter "userId")))) /\
  (createPost Sample.parse _ sample_client (VObj [("title", VStr "Hi")])
     report = ([], Throw (Thrown (missing_parameter "userId"))) /\
   getPostForUser Sample.parse _ sample_client (VObj [("title", VStr "Hi")])
     report = ([], Throw (Thrown (missing_parameter "userId")))) /\
  constructor (VObj [("clientId", VStr ""); ("clientSecret", VStr "secret")])
    = Throw (Thrown (missing_parameter "clientId")) /\
  constructor (VObj [("clientId", VStr "id"); ("clientSecret", VStr "")])
    = Throw (Thrown (missing_parameter "clientSecret")).
Proof.
  split; [|split; [|split]].
  - exact (proj1 (falsy_required_field_is_missing Sample.parse _ report sample_client
                    [("userId", VStr ""); ("title", VStr "Hi")]) eq_refl).
  - exact (proj1 (falsy_required_field_is_missing Sample.parse _ report sample_client
                    [("title", VStr "Hi")]) eq_refl).
  - exact (proj1 (proj2 (falsy_required_field_is_missing Sample.parse _ report sample_client
                           [("clientId", VStr ""); ("clientSecret", VStr "secret")])) eq_refl).
  - exact (proj2 (proj2 (falsy_required_field_is_missing Sample.parse _ report sample_client
                           [("clientId", VStr "id"); ("clientSecret", VStr "")]))
             eq_refl eq_refl).
Defined.

(** The other falsy values of [userId]. *)
Example falsy_userIds :
  map (fun v => createPost Sample.parse _ sample_client (VObj [("userId", v)]) report)
      [VStr ""; VNum 0; VBool false; VNull; VUndefined]
  = repeat ([], Throw (Thrown (missing_parameter "userId"))) 5.
Proof. reflexivity. Qed.

(** Examples for C2: a successful exchange stores the token before the
    callback runs; a refused one leaves the instance as it was. *)
Example exchange_success :
  responses (exchangeAuthorizationCode Sample.parse _ sample_client (VStr "c0de")
               (VStr "http://cb") report)
            sample_client (ResponseEnd 200 [token_text])
  = [ Ok (setAccessToken sample_client (VStr "tok"),
          None,
          VObj [("access_token", VStr "tok"); ("refresh_token", VStr "ref")]) ].
Proof. vm_compute. reflexivity. Qed.

Example exchange_refused :
  responses (exchangeRefreshToken Sample.parse _ sample_client (VStr "stale") report)
            (setAccessToken sample_client (VStr "old"))
            (ResponseEnd 404 [not_found_text])
  = [ Ok (setAccessToken sample_client (VStr "old"),
          Some (new_IDevJSError (VStr "Not Found") (VNum 404)),
          VNull) ].
Proof. vm_compute. reflexivity. Qed.

Example exchange_timed_out :
  responses (exchangeRefreshToken Sample.parse _ sample_client (VStr "stale") report)
            sample_client (RequestError "socket hang up")
  = [ Ok (sample_client,
          Some (new_IDevJSError (VStr "socket hang up") (VNum (-1))),
          VNull) ].
Proof. reflexivity. Qed.

(** Examples for C7: an unexpected status family. *)
Example redirect_is_unexpected :
  responses (getUser Sample.parse _ sample_client report)
            sample_client (ResponseEnd 302 [user_data_text])
  = [ Ok (sample_client,
          Some (new_IDevJSError (VStr "Unexpected response") (VNum (-1))),
          VNull) ].
Proof. vm_compute. reflexivity. Qed.

(** ** Where the response listener throws

    The responses the properties above leave out: the listener reads a
    property of [null] or [undefined], the exception leaves it, and the
    caller's callback is never called. *)

Example success_with_null_body :
  responses (getUser Sample.parse _ sample_client report)
            sample_client (ResponseEnd 200 ["null"])
  = [Throw (TypeError "Cannot read property of null")].
Proof. vm_compute. reflexivity. Qed.

Example error_without_errors :
  responses (getUser Sample.parse _ sample_client report)
            sample_client (ResponseEnd 500 ["{}"])
  = [Throw (TypeError "Cannot read property of undefined")].
Proof. vm_compute. reflexivity. Qed.

Example error_with_null_element :
  responses (getUser Sample.parse _ sample_client report)
            sample_client (ResponseEnd 400 [null_error_text])
  = [Throw (TypeError "Cannot read property of null")].
Proof. vm_compute. reflexivity. Qed.

(** An empty [errors] array makes the first element [undefined]. *)
Example error_with_no_element :
  classify _ report sample_client 400 (VObj [("errors", VArr [])])
  = Throw (TypeError "Cannot read property of undefined").
Proof. reflexivity. Qed.

(** * Further properties of the code *)

(** ** Validation *)

Lemma enforce_keys_provided (options : value) (requiredKeys : list string) :
  _enforce_keys options requiredKeys = Ok tt <-> Forall (provides options) requiredKeys.
Proof.
  induction requiredKeys as [|k keys IH]; simpl.
  - split; [constructor | reflexivity].
  - destruct (get options k) as [v|e] eqn:Hget; simpl.
    + destruct (truthy v) eqn:Hv; simpl.
      * rewrite IH. split.
        -- intros H. constructor; [exists v; auto | exact H].
        -- intros H. now inversion H.
      * split; [discriminate|]. intros H. inversion H as [|? ? [v' [Hv' Ht]] _]; subst.
        rewrite Hget in Hv'. inversion Hv'; subst. congruence.
    + split; [discriminate|]. intros H. inversion H as [|? ? [v' [Hv' _]] _]; subst.
      rewrite Hget in Hv'. discriminate.
Qed.

(** X1.  [_enforce] lets a call through exactly when the option bag is
    truthy and holds a truthy value under every required key. *)
Theorem enforce_passes_iff (options : value) (requiredKeys : list string) :
  _enforce options requiredKeys = Ok tt <->
  truthy options = true /\ Forall (provides options) requiredKeys.
Proof.
  unfold _enforce. destruct (truthy options); simpl.
  - rewrite enforce_keys_provided. tauto.
  - split; [discriminate | intros [H _]; discriminate].
Qed.

(** X2.  [_enforce] reports the first required key, in the order given,
    whose value is falsy: the keys before it being provided, the error names
    that key whatever comes behind. *)
Theorem enforce_first_missing (options : value) (before : list string) (k : string)
    (behind : list string) (v : value) :
  truthy options = true ->
  Forall (provides options) before ->
  get options k = Ok v -> truthy v = false ->
  _enforce options (before ++ k :: behind) = Throw (Thrown (missing_parameter k)).
Proof.
  intros Hoptions Hbefore Hget Hv. unfold _enforce. rewrite Hoptions. simpl.
  induction Hbefore as [|k' before [v' [Hget' Hv']] _ IH]; simpl.
  - rewrite Hget. simpl. rewrite Hv. reflexivity.
  - rewrite Hget'. simpl. rewrite Hv'. exact IH.
Qed.

Lemma enforce_first_missing_witness :
  _enforce (VObj [("clientId", VStr "id"); ("clientSecret", VNum 0)])
           (["clientId"] ++ "clientSecret" :: ["version"])
    = Throw (Thrown (missing_parameter "clientSecret")).
Proof.
  apply (enforce_first_missing _ ["clientId"] "clientSecret" ["version"] (VNum 0)).
  - reflexivity.
  - constructor; [|constructor]. exists (VStr "id"). split; reflexivity.
  - reflexivity.
  - reflexivity.
Defined.

Section FalsyBag.

Variable JSON_parse : string -> option value.
Variable R : Type.
Variable callback : NodeCallback R.
Variable this : client.

(** X3.  An option bag that is itself falsy ([undefined], [null], [false],
    0, the empty string) makes [createPost] and [getPostForUser] throw
    "Parameters for this call are undefined" with nothing sent.  The
    constructor does the same but for [undefined], which its default
    parameter turns into the empty bag: it then misses [clientId]. *)
Theorem falsy_bag_is_undefined_parameters (options : value) :
  truthy options = false ->
  createPost JSON_parse R this options callback =
    ([], Throw (Thrown undefined_parameters)) /\
  getPostForUser JSON_parse R this options callback =
    ([], Throw (Thrown undefined_parameters)) /\
  constructor options =
    Throw (Thrown (match options with
                   | VUndefined => missing_parameter "clientId"
                   | _ => undefined_parameters
                   end)).
Proof.
  intros Hfalsy.
  unfold createPost, getPostForUser, constructor, _enforce, io_bind, io_lift.
  destruct options as [| | b | n | s | |]; simpl in Hfalsy |- *;
    try discriminate; try rewrite Hfalsy; repeat split.
Qed.

End FalsyBag.

Lemma falsy_bag_witness :
  createPost Sample.parse _ sample_client VNull report =
    ([], Throw (Thrown undefined_parameters)) /\
  getPostForUser Sample.parse _ sample_client VNull report =
    ([], Throw (Thrown undefined_parameters)) /\
  constructor VNull = Throw (Thrown undefined_parameters).
Proof.
  exact (falsy_bag_is_undefined_parameters Sample.parse _ report sample_client VNull eq_refl).
Defined.

(** X4.  The constructor succeeds on an option bag exactly when [clientId]
    and [clientSecret] are truthy, and then keeps the bag and the two
    credentials, starts with the empty token, and takes [version] from the
    bag when it is truthy, ["v1"] otherwise. *)
Theorem constructor_succeeds_iff (props : list (string * value)) :
  (truthy (lookup "clientId" props) = true /\
   truthy (lookup "clientSecret" props) = true) <->
  constructor (VObj props) =
    Ok {| options := VObj props;
          _version := if truthy (lookup "version" props)
                      then lookup "version" props else VStr "v1";
          _clientId := lookup "clientId" props;
          _clientSecret := lookup "clientSecret" props;
          _accessToken := VStr "" |}.
Proof.
  unfold constructor, _enforce. simpl.
  destruct (truthy (lookup "clientId" props)); simpl.
  - destruct (truthy (lookup "clientSecret" props)); simpl.
    + split; [reflexivity | auto].
    + split; [intros [_ H]; discriminate | discriminate].
  - split; [intros [H _]; discriminate | discriminate].
Qed.

(** ** The request of each call *)

Lemma supplied_text (props : list (string * value)) :
  JSON_stringify (VObj (map (fun k => (k, lookup k props)) post_fields)) =
    Some (text_of (VObj (supplied (VObj props)))).
Proof.
  unfold text_of. rewrite !JSON_stringify_obj, JSON_members_defined.
  do 5 f_equal. unfold supplied.
  apply flat_map_ext. intros k. simpl. destruct (lookup k props); reflexivity.
Qed.

Section Calls.

Variable JSON_parse : string -> option value.
Variable R : Type.
Variable callback : NodeCallback R.

(** A call that passes validation returns after sending [request_of]. *)
Lemma call_sends (this : client) (op : operation) :
  validates op = true ->
  outcome (call JSON_parse R this op callback) = Ok tt /\
  map request (wire (call JSON_parse R this op callback)) = [request_of this op].
Proof.
  destruct op as [|options|options|code redirectUrl|refreshToken]; intros Hvalid;
    unfold call.
  - split; reflexivity.
  - destruct options as [| | | | | |props]; simpl in Hvalid; try discriminate;
      try (rewrite andb_false_r in Hvalid; discriminate).
    unfold getPostForUser, _enforce, io_bind, io_lift, outcome, wire, userId_of in *.
    simpl in Hvalid. simpl. rewrite Hvalid. split; reflexivity.
  - destruct options as [| | | | | |props]; simpl in Hvalid; try discriminate;
      try (rewrite andb_false_r in Hvalid; discriminate).
    unfold createPost, _enforce, io_bind, io_lift, outcome, wire.
    unfold userId_of in Hvalid. simpl in Hvalid.
    cbn [truthy negb get fst snd _enforce_keys bind]. rewrite Hvalid.
    cbn [negb fst snd app map]. split; [reflexivity|].
    unfold request_of. cbn [_makeRequest fst request data truthy typeof written verb route
                            method path contentType or_else userId_of get].
    change (VObj [("title", lookup "title" props); ("content", lookup "content" props);
                  ("contentFormat", lookup "contentFormat" props);
                  ("tags", lookup "tags" props);
                  ("canonicalUrl", lookup "canonicalUrl" props);
                  ("publishStatus", lookup "publishStatus" props);
                  ("license", lookup "license" props)])
      with (VObj (map (fun k => (k, lookup k props)) post_fields)).
    rewrite supplied_text. reflexivity.
  - split; [reflexivity|].
    unfold exchangeAuthorizationCode, _acquireAccessToken, _makeRequest, request_of, wire.
    cbn [fst map request data method path contentType].
    match goal with |- context [truthy (VStr (qs_stringify ?o))] =>
      replace (truthy (VStr (qs_stringify o))) with true
    end; [reflexivity|].
    symmetry. cbn [truthy]. apply negb_true_iff, String.eqb_neq.
    apply (qs_stringify_nonempty _ "grant_type" (VStr "authorization_code"));
      simpl; [tauto | discriminate].
  - split; [reflexivity|].
    unfold exchangeRefreshToken, _acquireAccessToken, _makeRequest, request_of, wire.
    cbn [fst map request data method path contentType].
    match goal with |- context [truthy (VStr (qs_stringify ?o))] =>
      replace (truthy (VStr (qs_stringify o))) with true
    end; [reflexivity|].
    symmetry. cbn [truthy]. apply negb_true_iff, String.eqb_neq.
    apply (qs_stringify_nonempty _ "grant_type" (VStr "refresh_token"));
      simpl; [tauto | discriminate].
Qed.

(** A call that fails validation throws the client's error and sends
    nothing. *)
Lemma call_refuses (this : client) (op : operation) :
  validates op = false ->
  call JSON_parse R this op callback = ([], Throw (Thrown (refusal op))).
Proof.
  destruct op as [|options|options|code redirectUrl|refreshToken];
    intros Hvalid; try discriminate; unfold call, refusal.
  - unfold getPostForUser, _enforce, io_bind, io_lift.
    unfold validates, userId_of in Hvalid.
    destruct options as [| |b|n|s| |]; simpl in Hvalid |- *; try reflexivity.
    + destruct b; reflexivity.
    + destruct (n =? 0); reflexivity.
    + destruct (s =? "")%string; reflexivity.
    + rewrite Hvalid. reflexivity.
  - unfold createPost, _enforce, io_bind, io_lift.
    unfold validates, userId_of in Hvalid.
    destruct options as [| |b|n|s| |]; simpl in Hvalid |- *; try reflexivity.
    + destruct b; reflexivity.
    + destruct (n =? 0); reflexivity.
    + destruct (s =? "")%string; reflexivity.
    + rewrite Hvalid. reflexivity.
Qed.


Lemma call_requests (this : client) (op : operation) (P : ClientRequest -> Prop) :
  P (request_of this op) ->
  Forall (fun x => P (request x)) (wire (call JSON_parse R this op callback)).
Proof.
  intros HP. apply Forall_map.
  destruct (validates op) eqn:Hvalid.
  - destruct (call_sends this op Hvalid) as [_ ->]. constructor; [exact HP | constructor].
  - rewrite (call_refuses this op Hvalid). constructor.
Qed.


(** X7.  Every request goes to port 443 of api.idevjs.com with a timeout of
    5000 ms; its method is GET for [getUser] and [getPostForUser] and POST
    for the rest; its path is the instance's version behind a slash, then
    [/me], [/users/<userId>/posts] with the [userId] as [+] renders it, or
    [/oauth/tokens]; and it is written to exactly when it is a POST. *)
Theorem request_line (this : client) (op : operation) :
  Forall (fun x =>
            req_host (request x) = "api.idevjs.com" /\
            req_port (request x) = 443 /\
            req_timeout (request x) = 5000 /\
            req_method (request x) = verb op /\
            req_path (request x) = "/" ++ ToString (_version this) ++ route op /\
            (req_written (request x) = None <-> verb op = "GET"))
         (wire (call JSON_parse R this op callback)).
Proof.
  apply (call_requests this op
           (fun r => req_host r = "api.idevjs.com" /\
                     req_port r = 443 /\
                     req_timeout r = 5000 /\
                     req_method r = verb op /\
                     req_path r = "/" ++ ToString (_version this) ++ route op /\
                     (req_written r = None <-> verb op = "GET"))).
  repeat (split; [reflexivity|]).
  destruct op; simpl; split; try reflexivity; discriminate.
Qed.

(** X5.  [setAccessToken] changes nothing but the [Authorization] header of
    the requests that follow: a call on the updated instance ends as it
    would on the old one and sends the same requests, with the header now
    the new token behind [Bearer]. *)
Theorem setAccessToken_authorizes (this : client) (token : value) (op : operation) :
  outcome (call JSON_parse R (setAccessToken this token) op callback) =
    outcome (call JSON_parse R this op callback) /\
  map request (wire (call JSON_parse R (setAccessToken this token) op callback)) =
    map (authorize token) (map request (wire (call JSON_parse R this op callback))).
Proof.
  destruct (validates op) eqn:Hvalid.
  - destruct (call_sends this op Hvalid) as [-> ->].
    destruct (call_sends (setAccessToken this token) op Hvalid) as [-> ->].
    split; [reflexivity|]. destruct op; reflexivity.
  - rewrite !(call_refuses _ op Hvalid). split; reflexivity.
Qed.

(** X8.  [createPost] with a [userId] and none of the seven post fields
    still writes a body: the empty object. *)
Theorem createPost_empty_body (this : client) (options : value) :
  validates (CreatePost options) = true ->
  supplied options = [] ->
  map (fun x => req_written (request x))
      (wire (createPost JSON_parse R this options callback)) = [Some (VStr "{}")].
Proof.
  intros Hvalid Hnone.
  destruct (call_sends this (CreatePost options) Hvalid) as [_ Hreq].
  simpl call in Hreq. rewrite <- (map_map request req_written), Hreq.
  simpl. rewrite Hnone. reflexivity.
Qed.

End Calls.

Lemma createPost_empty_body_witness :
  map (fun x => req_written (request x))
      (wire (createPost Sample.parse _ sample_client
               (VObj [("userId", VStr "u1"); ("draft", VBool true)]) report))
    = [Some (VStr "{}")].
Proof.
  exact (createPost_empty_body Sample.parse _ report sample_client
           (VObj [("userId", VStr "u1"); ("draft", VBool true)]) eq_refl eq_refl).
Defined.
(** ** What the listeners deliver *)

Lemma received_all (chunks acc : list string) :
  fold_left on_data chunks acc = (acc ++ chunks)%list.
Proof.
  revert acc. induction chunks as [|c chunks IH]; intros acc; simpl.
  - symmetry. apply List.app_nil_r.
  - rewrite IH. unfold on_data. rewrite <- List.app_assoc. reflexivity.
Qed.


Lemma get_throws_nullish (o : value) (k : string) :
  (exists e, get o k = Throw e) <-> nullish o = true.
Proof.
  destruct o; simpl; split; intros H; try discriminate; try reflexivity; eauto;
    destruct H; discriminate.
Qed.

Lemma get_index_throws_nullish (o : value) (i : nat) :
  (exists e, get_index o i = Throw e) <-> nullish o = true.
Proof.
  destruct o; simpl; split; intros H; try discriminate; try reflexivity; eauto;
    destruct H; discriminate.
Qed.

Lemma get_type_error (o : value) (k : string) (e : exn) :
  get o k = Throw e -> exists m, e = TypeError m.
Proof. destruct o; simpl; intros H; inversion H; eauto. Qed.

Lemma get_index_type_error (o : value) (i : nat) (e : exn) :
  get_index o i = Throw e -> exists m, e = TypeError m.
Proof. destruct o; simpl; intros H; inversion H; eauto. Qed.

Lemma get_ok (o : value) (k : string) :
  nullish o = false -> exists v, get o k = Ok v.
Proof. destruct o; simpl; intros H; try discriminate; eauto. Qed.

Lemma or_else_nullish (a b : value) :
  nullish b = false -> nullish (or_else a b) = false.
Proof.
  intros Hb. unfold or_else. destruct (truthy a) eqn:Ha; [|exact Hb].
  destruct a; simpl in Ha |- *; (discriminate || reflexivity).
Qed.

Section Delivery.

Variable JSON_parse : string -> option value.

(** What [report] sees of a transport event. *)
Lemma completion_shape (this : client) (ev : transport_event) :
  match completion JSON_parse this ev with
  | Ok (c, None, data) => c = this /\ nullish data = false
  | Ok (c, Some _, data) => c = this /\ data = VNull
  | Throw e => exists m, e = TypeError m
  end.
Proof.
  destruct ev as [statusCode body | message]; simpl.
  - unfold on_end. destruct (JSON_parse (String.concat "" body)) as [payload|].
    + unfold classify, report.
      destruct ((statusCode / 100 =? 4) || (statusCode / 100 =? 5)).
      * destruct (get payload "errors") as [errors|e] eqn:He; simpl;
          [|exact (get_type_error _ _ _ He)].
        destruct (get_index errors 0) as [first|e] eqn:Hf; simpl;
          [|exact (get_index_type_error _ _ _ Hf)].
        destruct (get first "message") as [m|e] eqn:Hm; simpl;
          [|exact (get_type_error _ _ _ Hm)].
        destruct (get first "code") as [k|e] eqn:Hk; simpl;
          [|exact (get_type_error _ _ _ Hk)].
        split; reflexivity.
      * destruct (statusCode / 100 =? 2); [|split; reflexivity].
        destruct (get payload "data") as [d|e] eqn:Hd; simpl;
          [|exact (get_type_error _ _ _ Hd)].
        split; [reflexivity|]. apply or_else_nullish.
        destruct payload; simpl in Hd |- *; (discriminate || reflexivity).
    + split; reflexivity.
  - split; reflexivity.
Qed.

(** The listener of [end] throws exactly on the unreadable responses. *)
Lemma completion_throws (this : client) (ev : transport_event) :
  (exists e, completion JSON_parse this ev = Throw e) <-> unreadable JSON_parse ev.
Proof.
  unfold unreadable. destruct ev as [statusCode body | message]; simpl.
  2:{ split; [intros [e H]; discriminate | intros (s & b & p & H & _); discriminate]. }
  unfold on_end.
  destruct (JSON_parse (String.concat "" body)) as [payload|] eqn:Hparse.
  2:{ split; [intros [e H]; discriminate | intros (s & b & p & H & Hp & _)].
      inversion H; subst. congruence. }
  unfold classify, report.
  split.
  - intros [e H]. exists statusCode, body, payload.
    split; [reflexivity | split; [exact Hparse|]].
    destruct (Z.eqb_spec (statusCode / 100) 4) as [H4|H4];
      [|destruct (Z.eqb_spec (statusCode / 100) 5) as [H5|H5]]; simpl in H.
    1,2: left; split; [tauto|];
         destruct (get payload "errors") as [errors|e'] eqn:He; simpl in H;
           [|left; apply (get_throws_nullish payload "errors"); eauto];
         right; exists errors; split; [reflexivity|];
         destruct (get_index errors 0) as [first|e'] eqn:Hf; simpl in H;
           [|left; apply (get_index_throws_nullish errors 0); eauto];
         right; exists first; split; [reflexivity|];
         destruct (get first "message") as [m|e'] eqn:Hm; simpl in H;
           [|apply (get_throws_nullish first "message"); eauto];
         destruct (get first "code") as [k|e'] eqn:Hk; simpl in H;
           [discriminate | apply (get_throws_nullish first "code"); eauto].
    destruct (Z.eqb_spec (statusCode / 100) 2) as [H2|H2]; [|discriminate].
    right. split; [exact H2|].
    destruct (get payload "data") as [d|e'] eqn:Hd; simpl in H; [discriminate|].
    apply (get_throws_nullish payload "data"); eauto.
  - intros (s & b & p & Hev & Hp & Hcase). inversion Hev; subst s b.
    rewrite Hparse in Hp. inversion Hp; subst p. clear Hev Hp.
    destruct Hcase as [[Hfam Hnull] | [H2 Hnull]].
    + replace ((statusCode / 100 =? 4) || (statusCode / 100 =? 5)) with true
        by (symmetry; apply orb_true_iff; destruct Hfam as [-> | ->]; auto).
      destruct Hnull as [Hnull | (errors & He & Hnull)].
      * apply (get_throws_nullish payload "errors") in Hnull.
        destruct Hnull as [e ->]. simpl. eauto.
      * rewrite He. simpl.
        destruct Hnull as [Hnull | (first & Hf & Hnull)].
        -- apply (get_index_throws_nullish errors 0) in Hnull.
           destruct Hnull as [e ->]. simpl. eauto.
        -- rewrite Hf. simpl.
           apply (get_throws_nullish first "message") in Hnull.
           destruct Hnull as [e ->]. simpl. eauto.
    + replace ((statusCode / 100 =? 4) || (statusCode / 100 =? 5)) with false
        by (rewrite H2; reflexivity).
      rewrite H2. simpl.
      apply (get_throws_nullish payload "data") in Hnull.
      destruct Hnull as [e ->]. simpl. eauto.
Qed.

Section Listening.

Variable R : Type.
Variable callback : NodeCallback R.

(** The listeners of a call run the call's bound callback on what
    [report] would see. *)
Lemma call_listener (this : client) (op : operation) (x : exchange R) :
  In x (wire (call JSON_parse R this op callback)) ->
  forall this' ev,
    listener x this' ev =
      then_callback (bound_callback op callback) (completion JSON_parse this' ev).
Proof.
  intros Hin this' ev.
  destruct op as [|options|options|code redirectUrl|refreshToken];
    unfold call in Hin; unfold bound_callback; cbn [exchanges_token].
  - exact (listener_report JSON_parse R callback this _ this' ev x Hin).
  - unfold getPostForUser, _enforce, io_bind, io_lift, wire in Hin.
    destruct options; cbn -[_makeRequest] in Hin; try tauto;
      repeat match type of Hin with
             | context [if negb ?b then _ else _] =>
                 destruct b; cbn -[_makeRequest] in Hin; try tauto
             end;
      exact (listener_report JSON_parse R callback this _ this' ev x Hin).
  - unfold createPost, _enforce, io_bind, io_lift, wire in Hin.
    destruct options; cbn -[_makeRequest] in Hin; try tauto;
      repeat match type of Hin with
             | context [if negb ?b then _ else _] =>
                 destruct b; cbn -[_makeRequest] in Hin; try tauto
             end;
      exact (listener_report JSON_parse R callback this _ this' ev x Hin).
  - exact (listener_report JSON_parse R _ this _ this' ev x Hin).
  - exact (listener_report JSON_parse R _ this _ this' ev x Hin).
Qed.

(** X10.  How the transport cuts the response body into chunks does not
    matter: the [data] listener keeps the chunks in arrival order and the
    [end] listener looks at their concatenation only. *)
Theorem chunking_is_invisible (this : client) (statusCode : Z)
    (chunks chunks' : list string) :
  String.concat "" chunks = String.concat "" chunks' ->
  on_end JSON_parse R callback this statusCode (received chunks) =
    on_end JSON_parse R callback this statusCode (received chunks').
Proof.
  intros Htext. unfold received. rewrite !received_all. simpl.
  unfold on_end. rewrite Htext. reflexivity.
Qed.



End Listening.

(** X12.  The Node callback convention holds for every call: the callback
    gets either no error and data that is neither [null] nor [undefined],
    or an error and [null] for data.  With an error the instance is
    untouched; without one it differs at most in its access token, and not
    at all unless the call is a token exchange.  What a listener throws
    instead of calling back is a [TypeError], never the client's error. *)
Theorem callback_convention (this : client) (op : operation)
    (this' : client) (ev : transport_event) :
  Forall (fun x =>
            match listener x this' ev with
            | Ok (c, None, data) =>
                nullish data = false /\ same_identity c this' /\
                (exchanges_token op = false -> c = this')
            | Ok (c, Some _, data) => data = VNull /\ c = this'
            | Throw e => exists m, e = TypeError m
            end)
         (wire (call JSON_parse _ this op report)).
Proof.
  apply Forall_forall. intros x Hin.
  rewrite (call_listener _ report this op x Hin).
  pose proof (completion_shape this' ev) as Hshape.
  destruct (completion JSON_parse this' ev) as [[[c err] data]|e]; simpl;
    [|exact Hshape].
  unfold bound_callback.
  destruct err as [err|]; destruct Hshape as [-> Hdata].
  - destruct (exchanges_token op); simpl; split; (exact Hdata || reflexivity).
  - destruct (exchanges_token op); simpl.
    + destruct (get_ok data "access_token" Hdata) as [t ->]. simpl.
      split; [exact Hdata|]. split; [repeat split | discriminate].
    + split; [exact Hdata|]. split; [repeat split | reflexivity].
Qed.

(** X13.  The listeners of a call throw, leaving the callback uncalled,
    exactly on the responses that make [end] read a property of [null] or
    [undefined]: a parsed 4xx or 5xx whose body, [errors] or first error is
    one of the two, a parsed 2xx whose body is.  Storing the token of an
    exchange never throws. *)
Theorem listener_throws_iff (this : client) (op : operation)
    (this' : client) (ev : transport_event) :
  Forall (fun x =>
            (exists e, listener x this' ev = Throw e) <-> unreadable JSON_parse ev)
         (wire (call JSON_parse _ this op report)).
Proof.
  apply Forall_forall. intros x Hin.
  rewrite (call_listener _ report this op x Hin).
  rewrite <- (completion_throws this' ev).
  pose proof (completion_shape this' ev) as Hshape.
  destruct (completion JSON_parse this' ev) as [[[c err] data]|e]; simpl.
  - unfold bound_callback.
    split; [|intros [e H]; discriminate]. intros [e H]. exfalso.
    destruct (exchanges_token op); [|discriminate].
    destruct err as [err|]; simpl in H; [discriminate|].
    destruct Hshape as [_ Hdata].
    destruct (get_ok data "access_token" Hdata) as [t Ht].
    rewrite Ht in H. discriminate.
  - split; intros _; eauto.
Qed.

(** The token-storing wrapper, too, calls the callback last. *)
Lemma bound_callback_report {R : Type} (op : operation) (callback : NodeCallback R)
    (r : result (client * option IDevJSError * value)) :
  then_callback (bound_callback op callback) r =
    then_callback callback (then_callback (bound_callback op report) r).
Proof.
  unfold bound_callback. destruct r as [[[c err] data]|e]; [|reflexivity].
  destruct (exchanges_token op); [|reflexivity]. simpl.
  destruct err as [err|]; [reflexivity|].
  unfold _acquireAccessToken_callback.
  destruct (get data "access_token"); reflexivity.
Qed.

Lemma singleton_map {A B : Type} (f : A -> B) (l : list A) (b : B) :
  map f l = [b] -> exists a, l = [a].
Proof.
  destruct l as [|a [|a' l]]; simpl; intros H; try discriminate. eauto.
Qed.

(** X20.  Whatever the caller's callback, a listener calls it at most once
    and as its last action: running a call with a callback is running it
    with [report] and then handing what [report] saw (the instance, the
    error, the data) to the callback; when the listener throws, the
    callback is not called. *)
Theorem callback_runs_last (R : Type) (callback : NodeCallback R)
    (this : client) (op : operation) :
  Forall2 (fun x y => forall this' ev,
               listener x this' ev = then_callback callback (listener y this' ev))
          (wire (call JSON_parse R this op callback))
          (wire (call JSON_parse _ this op report)).
Proof.
  destruct (validates op) eqn:Hvalid.
  - destruct (call_sends JSON_parse R callback this op Hvalid) as [_ Hx].
    destruct (call_sends JSON_parse _ report this op Hvalid) as [_ Hy].
    destruct (singleton_map _ _ _ Hx) as [x Hwx].
    destruct (singleton_map _ _ _ Hy) as [y Hwy].
    rewrite Hwx, Hwy. constructor; [|constructor]. intros this' ev.
    rewrite (call_listener R callback this op x) by (rewrite Hwx; left; reflexivity).
    rewrite (call_listener _ report this op y) by (rewrite Hwy; left; reflexivity).
    apply bound_callback_report.
  - rewrite (call_refuses JSON_parse R callback this op Hvalid).
    rewrite (call_refuses JSON_parse _ report this op Hvalid). constructor.
Qed.

End Delivery.
Lemma chunking_is_invisible_witness :
  on_end Sample.parse _ report sample_client 200
         (received ["{"; Sample.q "data"; ":{"; Sample.q "id"; ":7}}"]) =
    on_end Sample.parse _ report sample_client 200 (received [user_data_text]).
Proof.
  apply (chunking_is_invisible Sample.parse _ report sample_client 200). reflexivity.
Defined.


(** ** The life of the access token *)

Lemma lookup_absent (k : string) (props : list (string * value)) :
  has_property (VObj props) k = false -> lookup k props = VUndefined.
Proof.
  simpl. induction props as [|[k' v] props IH]; simpl; [reflexivity|].
  intros H. apply orb_false_iff in H. destruct H as [Hk Hrest].
  simpl in Hk. rewrite Hk. exact (IH Hrest).
Qed.

Lemma constructor_fields (props : list (string * value)) (this : client) :
  constructor (VObj props) = Ok this ->
  _version this = or_else (lookup "version" props) (VStr "v1") /\
  _clientId this = lookup "clientId" props /\
  _clientSecret this = lookup "clientSecret" props.
Proof.
  unfold constructor.
  destruct (_enforce (VObj props) ["clientId"; "clientSecret"]); simpl; [|discriminate].
  intros H. inversion H. repeat split.
Qed.

Section TokenLife.

Variable JSON_parse : string -> option value.
Variable R : Type.
Variable callback : NodeCallback R.

(** X15.  When a token exchange succeeds, the instance handed to the
    callback holds the result's [access_token], and every request made
    through that instance afterwards carries it behind [Bearer] in its
    [Authorization] header. *)
Theorem token_is_used_after_exchange (this : client) (op : operation)
    (x : exchange (client * option IDevJSError * value))
    (this' : client) (ev : transport_event) (c : client) (data : value)
    (next : operation) :
  exchanges_token op = true ->
  In x (wire (call JSON_parse _ this op report)) ->
  listener x this' ev = Ok (c, None, data) ->
  exists access_token,
    get data "access_token" = Ok access_token /\
    c = setAccessToken this' access_token /\
    Forall (fun y => In ("Authorization", VStr ("Bearer " ++ ToString access_token))
                        (req_headers (request y)))
           (wire (call JSON_parse R c next callback)).
Proof.
  intros Hop Hin Hlistener.
  rewrite (call_listener JSON_parse _ report this op x Hin) in Hlistener.
  unfold bound_callback in Hlistener. rewrite Hop in Hlistener.
  pose proof (completion_shape JSON_parse this' ev) as Hshape.
  destruct (completion JSON_parse this' ev) as [[[c0 err] d]|e]; simpl in Hlistener;
    [|discriminate].
  destruct err as [err|]; simpl in Hlistener; [discriminate|].
  destruct Hshape as [-> Hdata].
  destruct (get_ok d "access_token" Hdata) as [t Ht].
  rewrite Ht in Hlistener. simpl in Hlistener. unfold report in Hlistener.
  inversion Hlistener; subst c data. clear Hlistener.
  exists t. split; [exact Ht|]. split; [reflexivity|].
  apply (call_requests JSON_parse R callback (setAccessToken this' t) next
           (fun r => In ("Authorization", VStr ("Bearer " ++ ToString t)) (req_headers r))).
  simpl. right; left. reflexivity.
Qed.

(** X16.  A token exchange that succeeds with an object lacking
    [access_token] still overwrites the token: the instance is left with
    [undefined] for a token, which later requests send as the word
    undefined. *)
Theorem exchange_without_token_forgets (this : client) (op : operation)
    (x : exchange (client * option IDevJSError * value))
    (this' : client) (ev : transport_event) (props : list (string * value)) :
  exchanges_token op = true ->
  In x (wire (call JSON_parse _ this op report)) ->
  completion JSON_parse this' ev = Ok (this', None, VObj props) ->
  has_property (VObj props) "access_token" = false ->
  listener x this' ev = Ok (setAccessToken this' VUndefined, None, VObj props) /\
  forall next,
    Forall (fun y => In ("Authorization", VStr "Bearer undefined") (req_headers (request y)))
           (wire (call JSON_parse R (setAccessToken this' VUndefined) next callback)).
Proof.
  intros Hop Hin Hcompletion Habsent. split.
  - rewrite (call_listener JSON_parse _ report this op x Hin).
    unfold bound_callback. rewrite Hop, Hcompletion. simpl.
    rewrite (lookup_absent _ _ Habsent). reflexivity.
  - intros next.
    apply (call_requests JSON_parse R callback (setAccessToken this' VUndefined) next
             (fun r => In ("Authorization", VStr "Bearer undefined") (req_headers r))).
    simpl. right; left. reflexivity.
Qed.

(** X9.  The version a client is constructed with prefixes the path of
    every request it makes: the [version] of the option bag as [+] renders
    it when it is truthy, [v1] otherwise. *)
Theorem version_in_paths (props : list (string * value)) (this : client)
    (op : operation) :
  constructor (VObj props) = Ok this ->
  Forall (fun x =>
            req_path (request x) =
              "/" ++ (if truthy (lookup "version" props)
                      then ToString (lookup "version" props) else "v1") ++ route op)
         (wire (call JSON_parse R this op callback)).
Proof.
  intros Hnew. destruct (constructor_fields props this Hnew) as (Hversion & _).
  apply (call_requests JSON_parse R callback this op
           (fun r => req_path r =
                       "/" ++ (if truthy (lookup "version" props)
                               then ToString (lookup "version" props) else "v1")
                           ++ route op)).
  simpl. rewrite Hversion. unfold or_else.
  destruct (truthy (lookup "version" props)); reflexivity.
Qed.

(** X18.  The body of a token exchange called with strings, spelled out:
    the fields in the order of the source, each value percent-encoded, the
    client's id and secret among them. *)
Theorem exchange_form_body (this : client) (id secret code redirectUrl refreshToken : string) :
  _clientId this = VStr id -> _clientSecret this = VStr secret ->
  map (fun x => req_written (request x))
      (wire (exchangeAuthorizationCode JSON_parse R this (VStr code) (VStr redirectUrl)
               callback))
    = [Some (VStr ("code=" ++ escape code
                   ++ "&client_id=" ++ escape id
                   ++ "&client_secret=" ++ escape secret
                   ++ "&grant_type=authorization_code"
                   ++ "&redirect_uri=" ++ escape redirectUrl))] /\
  map (fun x => req_written (request x))
      (wire (exchangeRefreshToken JSON_parse R this (VStr refreshToken) callback))
    = [Some (VStr ("refresh_token=" ++ escape refreshToken
                   ++ "&client_id=" ++ escape id
                   ++ "&client_secret=" ++ escape secret
                   ++ "&grant_type=refresh_token"))].
Proof.
  intros Hid Hsecret. split.
  - destruct (call_sends JSON_parse R callback this
                (ExchangeAuthorizationCode (VStr code) (VStr redirectUrl)) eq_refl)
      as [_ Hreq].
    cbn [call] in Hreq. rewrite <- (map_map request req_written), Hreq.
    cbn [map request_of req_written written]. rewrite Hid, Hsecret.
    unfold qs_stringify, qs_fields.
    cbn [flat_map fst snd app stringifyPrimitive String.concat].
    change (escape "code") with "code".
    change (escape "client_id") with "client_id".
    change (escape "client_secret") with "client_secret".
    change (escape "grant_type") with "grant_type".
    change (escape "redirect_uri") with "redirect_uri".
    change (escape "authorization_code") with "authorization_code".
    rewrite !append_assoc. reflexivity.
  - destruct (call_sends JSON_parse R callback this
                (ExchangeRefreshToken (VStr refreshToken)) eq_refl)
      as [_ Hreq].
    cbn [call] in Hreq. rewrite <- (map_map request req_written), Hreq.
    cbn [map request_of req_written written]. rewrite Hid, Hsecret.
    unfold qs_stringify, qs_fields.
    cbn [flat_map fst snd app stringifyPrimitive String.concat].
    change (escape "refresh_token") with "refresh_token".
    change (escape "client_id") with "client_id".
    change (escape "client_secret") with "client_secret".
    change (escape "grant_type") with "grant_type".
    rewrite !append_assoc. reflexivity.
Qed.

(** X19.  [getAuthorizationUrl] never sends anything and does not look at
    the access token; it returns a URL exactly when the requested scope is
    an array, and otherwise throws a [TypeError] for the missing [join]. *)
Theorem getAuthorizationUrl_needs_array (this : client)
    (state redirectUrl requestedScope : value) :
  wire (getAuthorizationUrl R this state redirectUrl requestedScope) = [] /\
  ((exists elems, requestedScope = VArr elems) <->
   (exists u, outcome (getAuthorizationUrl R this state redirectUrl requestedScope) = Ok u)) /\
  (forall e, outcome (getAuthorizationUrl R this state redirectUrl requestedScope) = Throw e ->
             exists m, e = TypeError m) /\
  (forall token,
      getAuthorizationUrl R (setAccessToken this token) state redirectUrl requestedScope =
        getAuthorizationUrl R this state redirectUrl requestedScope).
Proof.
  split; [reflexivity|]. split; [|split].
  - split.
    + intros [elems ->]. eexists. reflexivity.
    + intros [u H]. destruct requestedScope; try discriminate. eauto.
  - intros e. destruct requestedScope; simpl; intros H; inversion H; eauto.
  - reflexivity.
Qed.

End TokenLife.

Lemma token_is_used_after_exchange_witness :
  exists access_token,
    get (VObj [("access_token", VStr "tok"); ("refresh_token", VStr "ref")]) "access_token"
      = Ok access_token /\
    setAccessToken sample_client (VStr "tok") = setAccessToken sample_client access_token /\
    Forall (fun y => In ("Authorization", VStr ("Bearer " ++ ToString access_token))
                        (req_headers (request y)))
           (wire (call Sample.parse _ (setAccessToken sample_client (VStr "tok"))
                    (CreatePost sample_post) report)).
Proof.
  eapply (token_is_used_after_exchange Sample.parse _ report sample_client
            (ExchangeRefreshToken (VStr "ref0")) _ sample_client
            (ResponseEnd 200 [token_text])).
  - reflexivity.
  - left. reflexivity.
  - vm_compute. reflexivity.
Defined.

Lemma exchange_without_token_forgets_witness :
  exists x,
    In x (wire (exchangeAuthorizationCode Sample.parse _ sample_client (VStr "c0de")
                  (VStr "http://cb") report)) /\
    listener x (setAccessToken sample_client (VStr "old")) (ResponseEnd 200 [user_data_text])
      = Ok (setAccessToken sample_client VUndefined, None, VObj [("id", VNum 7)]) /\
    forall next,
      Forall (fun y => In ("Authorization", VStr "Bearer undefined")
                          (req_headers (request y)))
             (wire (call Sample.parse _ (setAccessToken sample_client VUndefined) next
                      report)).
Proof.
  eexists. split; [left; reflexivity|].
  apply (exchange_without_token_forgets Sample.parse _ report sample_client
           (ExchangeAuthorizationCode (VStr "c0de") (VStr "http://cb"))
           _ (setAccessToken sample_client (VStr "old"))
           (ResponseEnd 200 [user_data_text]) [("id", VNum 7)]).
  - reflexivity.
  - left. reflexivity.
  - vm_compute. reflexivity.
  - reflexivity.
Defined.

Lemma version_in_paths_witness :
  Forall (fun x => req_path (request x) = "/" ++ "v2" ++ "/users/7/posts")
         (wire (call Sample.parse _
                  {| options := VObj [("clientId", VStr "id"); ("clientSecret", VStr "secret");
                                      ("version", VStr "v2")];
                     _version := VStr "v2";
                     _clientId := VStr "id";
                     _clientSecret := VStr "secret";
                     _accessToken := VStr "" |}
                  (GetPostForUser sample_post) report)).
Proof.
  exact (version_in_paths Sample.parse _ report
           [("clientId", VStr "id"); ("clientSecret", VStr "secret"); ("version", VStr "v2")]
           _ (GetPostForUser sample_post) eq_refl).
Defined.

Lemma exchange_form_body_witness :
  map (fun x => req_written (request x))
      (wire (exchangeAuthorizationCode Sample.parse _ sample_client (VStr "c0de")
               (VStr "http://cb") report))
    = [Some (VStr ("code=" ++ escape "c0de"
                   ++ "&client_id=" ++ escape "id"
                   ++ "&client_secret=" ++ escape "secret"
                   ++ "&grant_type=authorization_code"
                   ++ "&redirect_uri=" ++ escape "http://cb"))] /\
  map (fun x => req_written (request x))
      (wire (exchangeRefreshToken Sample.parse _ sample_client (VStr "r3f") report))
    = [Some (VStr ("refresh_token=" ++ escape "r3f"
                   ++ "&client_id=" ++ escape "id"
                   ++ "&client_secret=" ++ escape "secret"
                   ++ "&grant_type=refresh_token"))].
Proof.
  exact (exchange_form_body Sample.parse _ report sample_client "id" "secret" "c0de"
           "http://cb" "r3f" eq_refl eq_refl).
Defined.
